(** * PyQtThemeable: the theme registry, the color codec and the placeholder
      resolver of [src/PyQtThemeable/ThemeProvider.py], embedded in Rocq.

    Conventions of the embedding.
    - A Python [str] is a [string]; a character is its code point, so the
      model covers the code points below 256 (ASCII and Latin-1), and
      every statement about a string is about such a string.
    - A Python [int] is a [Z]; a Python [float] is an IEEE 754 binary64 value,
      a [spec_float] used at precision 53 and maximal exponent 1024.
    - A call that may raise returns an [outcome]; a method that also mutates
      the singleton, a binding or a widget is a function from the [World]
      to the [World] it leaves behind and its [outcome]: what was mutated
      before an exception stays mutated.
    - [Theme.theme_obj] is a [gmap]; [ThemeProvider.themes], whose insertion
      order [incrementTheme] walks, is an association list. A [Theme] is
      its value: two themes of the same name and attributes are one.
    - The interpreter is CPython with its default settings: [int] reads
      at most [sys.int_info.default_max_str_digits] digits, 4300, in a base
      that is no power of two. The limits of memory are not modelled. *)

From Stdlib Require Import ZArith List String Ascii Bool Lia SpecFloat HexString.
From stdpp Require Import gmap strings.

Open Scope string_scope.
Open Scope Z_scope.

(** ** Exceptions and outcomes *)

Inductive exn : Type :=
| AttributeError
| KeyError (key : string)
| ValueError
| IndexError
| TypeError
| ZeroDivisionError
| OverflowError
| Exception (msg : string).

Inductive outcome (A : Type) : Type :=
| Return (a : A)
| Raise (e : exn).
Arguments Return {A} a.
Arguments Raise {A} e.

Definition bind {A B : Type} (m : outcome A) (k : A -> outcome B) : outcome B :=
  match m with
  | Return a => k a
  | Raise e => Raise e
  end.

Notation "'let!' x ':=' m 'in' k" := (bind m (fun x => k))
  (at level 10, x name, m at level 100, k at level 200).

(** ** Python builtins used by the module *)

Module Py.

Definition ord (c : ascii) : Z := Z.of_N (N_of_ascii c).

Definition in_range (lo hi : Z) (c : ascii) : bool :=
  (lo <=? ord c) && (ord c <=? hi).

(** White space as [int()] skips it: the C locale's (tab to carriage
    return, space) and, beyond ASCII, NEL and the no-break space. *)
Definition is_space (c : ascii) : bool :=
  in_range 9 13 c || (ord c =? 32) || (ord c =? 133) || (ord c =? 160).

(** [str.isdecimal] on one character, the class [\d] of [re]. *)
Definition is_decimal (c : ascii) : bool := in_range 48 57 c.

(** [str.isalnum] on one character or an underscore, the class [\w] of
    [re] on a [str] pattern. *)
Definition is_word (c : ascii) : bool :=
  in_range 48 57 c || in_range 65 90 c || in_range 97 122 c || (ord c =? 95)
  || (ord c =? 170) || (ord c =? 178) || (ord c =? 179) || (ord c =? 181)
  || (ord c =? 185) || (ord c =? 186) || in_range 188 190 c
  || in_range 192 214 c || in_range 216 246 c || in_range 248 255 c.

(** The digit table of [int()]: 37 marks a character that is no digit in
    any base. *)
Definition digit_value (c : ascii) : Z :=
  if in_range 48 57 c then ord c - 48
  else if in_range 97 122 c then ord c - 87
  else if in_range 65 90 c then ord c - 55
  else 37.

Fixpoint lstrip_space (s : string) : string :=
  match s with
  | String c s' => if is_space c then lstrip_space s' else s
  | EmptyString => s
  end.

(** The digit loop of [int()]: digits below [base], single underscores
    between them. [prev] tells that the last character was an underscore,
    [seen] that a character was consumed. [None] is a syntax error. *)
Fixpoint scan_digits (base : Z) (prev seen : bool) (acc : Z) (s : string)
  : option (bool * Z * string) :=
  match s with
  | String c s' =>
      if Ascii.eqb c "_" then
        if prev then None else scan_digits base true true acc s'
      else if digit_value c <? base then
        scan_digits base false true (acc * base + digit_value c) s'
      else if prev then None else Some (seen, acc, s)
  | EmptyString => if prev then None else Some (seen, acc, s)
  end.

Definition strip_sign (s : string) : bool * string :=
  match s with
  | String "+" r => (false, r)
  | String "-" r => (true, r)
  | _ => (false, s)
  end.

(** The [0x] prefix, accepted in base 16, and the one underscore allowed
    after it. *)
Definition strip_prefix16 (s : string) : string :=
  match s with
  | String "0" (String x r) =>
      if Ascii.eqb x "x" || Ascii.eqb x "X" then
        match r with
        | String "_" r' => r'
        | _ => r
        end
      else s
  | _ => s
  end.

(** The limit on the digits of a number that [int()] reads from a string,
    [sys.get_int_max_str_digits()] as the interpreter starts. It holds in
    the bases that are no power of two. *)
Definition max_str_digits : Z := 4300.

Definition binary_base (base : Z) : bool :=
  (base =? 2) || (base =? 4) || (base =? 8) || (base =? 16) || (base =? 32).

(** The digits that the limit counts: those of the run that the digit
    loop reads, leading zeros among them, the underscores left out. *)
Fixpoint count_digits (base : Z) (s : string) : Z :=
  match s with
  | String c s' =>
      if Ascii.eqb c "_" then count_digits base s'
      else if digit_value c <? base then 1 + count_digits base s'
      else 0
  | EmptyString => 0
  end.

(** [int(s, base)] for the two bases the module uses, 10 and 16. A number
    of too many digits is a [ValueError], like an error of syntax. *)
Definition int (s : string) (base : Z) : outcome Z :=
  let '(neg, s1) := strip_sign (lstrip_space s) in
  let s2 := if base =? 16 then strip_prefix16 s1 else s1 in
  match s2 with
  | String "_" _ => Raise ValueError
  | _ =>
      match scan_digits base false false 0 s2 with
      | None => Raise ValueError
      | Some (seen, v, rest) =>
          if negb seen then Raise ValueError
          else if negb (binary_base base) && (max_str_digits <? count_digits base s2)
          then Raise ValueError
          else match lstrip_space rest with
               | EmptyString => Return (if neg then - v else v)
               | String _ _ => Raise ValueError
               end
      end
  end.

(** [s.lstrip(c)] for a one-character argument. *)
Fixpoint lstrip (c : ascii) (s : string) : string :=
  match s with
  | String d s' => if Ascii.eqb d c then lstrip c s' else s
  | EmptyString => s
  end.

(** [s.replace(c, "")] for a one-character [c]. *)
Fixpoint remove (c : ascii) (s : string) : string :=
  match s with
  | String d s' => if Ascii.eqb d c then remove c s' else String d (remove c s')
  | EmptyString => EmptyString
  end.

(** The slice [s[i:i+n]]: it saturates at the end of the string. *)
Definition slice (i n : nat) (s : string) : string := substring i n s.

(** [format(n, "02x")]: lower-case hexadecimal digits, padded with zeros
    after the sign to two characters in all. *)
Definition hex_digits (n : Z) : string :=
  match n with
  | Z0 => "0"
  | Zpos p | Zneg p => HexString.Raw.of_pos p ""
  end.

Definition format_02x (n : Z) : string :=
  let digits := hex_digits n in
  if n <? 0 then String "-" digits
  else match digits with
       | String d EmptyString => String "0" digits
       | _ => digits
       end.

(** *** Floats *)

Definition prec : Z := 53.
Definition emax : Z := 1024.

(** The conversion of an [int] operand to [float]: correctly rounded,
    [OverflowError] beyond the range. *)
Definition float_of_int (n : Z) : outcome spec_float :=
  match binary_normalize prec emax n 0 false with
  | S754_infinity _ => Raise OverflowError
  | f => Return f
  end.

(** [a / b] on two [int]s: the correctly rounded quotient. *)
Definition int_truediv (a b : Z) : outcome spec_float :=
  match a, b with
  | _, Z0 => Raise ZeroDivisionError
  | Z0, Zpos _ => Return (S754_zero false)
  | Z0, Zneg _ => Return (S754_zero true)
  | (Zpos m | Zneg m), (Zpos d | Zneg d) =>
      match SFdiv prec emax (S754_finite (a <? 0) m 0) (S754_finite (b <? 0) d 0) with
      | S754_infinity _ => Raise OverflowError
      | f => Return f
      end
  end.

(** [int(x)] on a [float]: truncation towards zero. *)
Definition int_of_float (x : spec_float) : outcome Z :=
  match x with
  | S754_zero _ => Return 0
  | S754_infinity _ => Raise OverflowError
  | S754_nan => Raise ValueError
  | S754_finite s m e =>
      let a := match e with
               | Zneg _ => Z.shiftr (Zpos m) (- e)
               | _ => Z.shiftl (Zpos m) e
               end in
      Return (if s then - a else a)
  end.

End Py.

(** ** The color codec *)

(** [hex_to_rgb]: the three two-character slices of the string without its
    leading [#]s, each read by [int(_, 16)]. *)
Definition hex_to_rgb (hex_color : string) : outcome (Z * Z * Z) :=
  let hex_color := Py.lstrip "#" hex_color in
  let! r := Py.int (Py.slice 0 2 hex_color) 16 in
  let! g := Py.int (Py.slice 2 2 hex_color) 16 in
  let! b := Py.int (Py.slice 4 2 hex_color) 16 in
  Return (r, g, b).

Definition rgb_to_hex (rgb_color : Z * Z * Z) : string :=
  let '(r, g, b) := rgb_color in
  "#" ++ Py.format_02x r ++ Py.format_02x g ++ Py.format_02x b.

(** One channel of [modifyColor]: [max(int(c * (1 - (factor/1000))), 0)]. *)
Definition darken (factor c : Z) : outcome Z :=
  let! q := Py.int_truediv factor 1000 in
  let! one := Py.float_of_int 1 in
  let k := SFsub Py.prec Py.emax one q in
  let! cf := Py.float_of_int c in
  let! i := Py.int_of_float (SFmul Py.prec Py.emax cf k) in
  Return (Z.max i 0).

(** [ThemeProvider.modifyColor]; it reads nothing of the provider. *)
Definition modifyColor (hex_color : string) (factor : Z) : outcome string :=
  let! rgb_color := hex_to_rgb hex_color in
  let '(r, g, b) := rgb_color in
  let! r' := darken factor r in
  let! g' := darken factor g in
  let! b' := darken factor b in
  Return (rgb_to_hex (r', g', b')).

(** ** The placeholder pattern *)

Module Re.

(** The longest prefix of [s] made of characters of class [p], and what
    follows it. *)
Fixpoint span (p : ascii -> bool) (s : string) : string * string :=
  match s with
  | String c s' =>
      if p c then let '(a, b) := span p s' in (String c a, b)
      else (EmptyString, s)
  | EmptyString => (EmptyString, EmptyString)
  end.

Fixpoint literal (lit s : string) : option string :=
  match lit, s with
  | EmptyString, _ => Some s
  | String a lit', String b s' => if Ascii.eqb a b then literal lit' s' else None
  | String _ _, EmptyString => None
  end.

(** A match of the pattern: [group(1)], [group(2)] ([None] when the
    optional group took no part) and the text after the match. *)
Record Match : Type := mkMatch
  { group1 : string; group2 : option string; after : string }.

(** The pattern [theme\.(\w+)(\[\d+\])?] matched at the start of [s].
    Both [\w+] and [\d+] are greedy and a shorter run never lets the rest
    of the pattern match where the longest does not (the character after
    a shorter run is a word character, or a digit), and the pattern
    matches without its optional group wherever it matches with it: the
    backtracking matcher of [re] returns the match computed here. *)
Definition match_here (s : string) : option Match :=
  match literal "theme." s with
  | None => None
  | Some s1 =>
      match span Py.is_word s1 with
      | (EmptyString, _) => None
      | (attribute, s2) =>
          match s2 with
          | String "[" s3 =>
              match span Py.is_decimal s3 with
              | (String d ds, String "]" s4) =>
                  Some (mkMatch attribute (Some ("[" ++ String d ds ++ "]")) s4)
              | _ => Some (mkMatch attribute None s2)
              end
          | _ => Some (mkMatch attribute None s2)
          end
      end
  end.

(** [re.sub(pattern, repl, s)] with a function [repl]: the matches are
    found from left to right, [repl] is called on each as it is found and
    whatever it raises ends the substitution. Each round consumes a
    character at least: any [fuel] above the length of [s] gives the same
    result, and [sub] starts with that much. *)
Fixpoint sub_loop (fuel : nat) (repl : Match -> outcome string) (s : string)
  : outcome string :=
  match fuel with
  | O => Return s
  | S fuel' =>
      match match_here s with
      | Some m =>
          let! r := repl m in
          let! t := sub_loop fuel' repl (after m) in
          Return (r ++ t)
      | None =>
          match s with
          | EmptyString => Return EmptyString
          | String c s' =>
              let! t := sub_loop fuel' repl s' in
              Return (String c t)
          end
      end
  end.

Definition sub (repl : Match -> outcome string) (s : string) : outcome string :=
  sub_loop (S (String.length s)) repl s.

(** [re.search(pattern, s) is not None]. *)
Fixpoint search (s : string) : bool :=
  match match_here s with
  | Some _ => true
  | None =>
      match s with
      | EmptyString => false
      | String _ s' => search s'
      end
  end.

(** [re.search(pattern, s)]: the leftmost match, the first that [sub]
    hands to its function. *)
Fixpoint first_match (s : string) : option Match :=
  match match_here s with
  | Some m => Some m
  | None =>
      match s with
      | EmptyString => None
      | String _ s' => first_match s'
      end
  end.

End Re.

(** ** Themes and the registry *)

Record Theme : Type := mkTheme
  { name : string; theme_obj : gmap string string }.

(** What [addObserver] receives: the bound method [onThemeChange] of the
    [Themeable] at address [self], or a callable [k] of the application. *)
Inductive Callback : Type :=
| bound_onThemeChange (self : nat)
| foreign (k : nat).

(** An instance attribute that [__new__] may have left unassigned. *)
Inductive attribute (A : Type) : Type :=
| absent
| assigned (v : option A).
Arguments absent {A}.
Arguments assigned {A} v.

Record ThemeProvider : Type := mkProvider
  { _observers : list Callback;
    base_theme : attribute Theme;
    themes : list (string * Theme);
    current_theme : option Theme }.

(** [d[k]], [d[k] = v] and [list(d.keys())] on an insertion-ordered dict. *)
Fixpoint dict_get {V : Type} (k : string) (d : list (string * V)) : option V :=
  match d with
  | [] => None
  | (k', v) :: d' => if String.eqb k' k then Some v else dict_get k d'
  end.

Fixpoint dict_set {V : Type} (k : string) (v : V) (d : list (string * V))
  : list (string * V) :=
  match d with
  | [] => [(k, v)]
  | (k', v') :: d' =>
      if String.eqb k' k then (k', v) :: d' else (k', v') :: dict_set k v d'
  end.

Definition keys {V : Type} (d : list (string * V)) : list string := map fst d.


(** [l.index(x)]. *)
Fixpoint index (x : string) (l : list string) : option nat :=
  match l with
  | [] => None
  | y :: l' => if String.eqb y x then Some O else option_map S (index x l')
  end.

(** [ThemeProvider.getAttr]: the [try] block, then the handler that turns
    an [AttributeError] into [Exception("No Theme set")]. A modifier of 0 is
    falsy, like [None]. *)
Definition getAttr (self : ThemeProvider) (key : string) (modifier : option Z)
  : outcome string :=
  let body :=
    match current_theme self with
    | None => Raise AttributeError
    | Some t =>
        let attr := default "#000000" (theme_obj t !! key) in
        match modifier with
        | Some f => if f =? 0 then Return attr else modifyColor attr f
        | None => Return attr
        end
    end in
  match body with
  | Raise AttributeError => Raise (Exception "No Theme set")
  | r => r
  end.

(** The [replacer] closure of [Themeable._replacePlaceholders]. *)
Definition replacer (provider : ThemeProvider) (m : Re.Match) : outcome string :=
  let attribute := Re.group1 m in
  match Re.group2 m with
  | Some mod_ =>
      let! modify := Py.int (Py.remove "]" (Py.remove "[" mod_)) 10 in
      getAttr provider attribute (Some modify)
  | None => getAttr provider attribute None
  end.

Definition _replacePlaceholders (provider : ThemeProvider) (style_sheet : string)
  : outcome string :=
  Re.sub (replacer provider) style_sheet.

(** ** Bindings, widgets and the world *)

(** The attributes of a [Themeable] instance. [self.provider] is the
    singleton, assigned by [__init__] and by nothing else. *)
Record Themeable : Type := mkThemeable
  { style_sheet : option string; widget : option nat }.

(** What lives outside the registry: the [Themeable] instances by address,
    and the style sheets the widgets were given, oldest first. *)
Record Env : Type := mkEnv
  { objects : list Themeable; applied : list (nat * string) }.

(** [calls] is the record of the observer calls made so far, oldest first;
    the program does not read it. *)
Record World : Type := mkWorld
  { provider : ThemeProvider; env : Env; calls : list Callback }.

Definition M (A : Type) : Type := World -> World * outcome A.

Definition ret {A : Type} (a : A) : M A := fun w => (w, Return a).

Definition raise {A : Type} (e : exn) : M A := fun w => (w, Raise e).

Definition bindM {A B : Type} (m : M A) (k : A -> M B) : M B :=
  fun w =>
    match m w with
    | (w', Return a) => k a w'
    | (w', Raise e) => (w', Raise e)
    end.

Notation "'do!' x ':=' m 'in' k" := (bindM m (fun x => k))
  (at level 10, x name, m at level 100, k at level 200).
Notation "m ';;' k" := (bindM m (fun _ => k))
  (at level 100, k at level 200, right associativity).

Definition lift {A : Type} (o : outcome A) : M A := fun w => (w, o).

Definition get_provider : M ThemeProvider := fun w => (w, Return (provider w)).

Definition put_provider (p : ThemeProvider) : M unit :=
  fun w => (mkWorld p (env w) (calls w), Return tt).

Definition put_env (e : Env) : M unit :=
  fun w => (mkWorld (provider w) e (calls w), Return tt).

Definition get_env : M Env := fun w => (w, Return (env w)).

(** [ThemeProvider.__new__] on the first call. *)
Definition new_provider : ThemeProvider :=
  {| _observers := []; base_theme := absent; themes := []; current_theme := None |}.

Definition initial_world : World :=
  {| provider := new_provider; env := mkEnv [] []; calls := [] |}.

(** [{**base, **theme_obj}]: the keys of both, [theme_obj] winning. *)
Definition merged (base theme_obj : gmap string string) : gmap string string :=
  theme_obj ∪ base.

Definition addTheme (name : string) (theme_obj : gmap string string) : M unit :=
  do! self := get_provider in
  match base_theme self with
  | absent => raise AttributeError
  | assigned base =>
      let theme_obj :=
        match base with
        | Some (mkTheme _ base_obj) => merged base_obj theme_obj
        | None => theme_obj
        end in
      put_provider
        {| _observers := _observers self;
           base_theme := base_theme self;
           themes := dict_set name (mkTheme name theme_obj) (themes self);
           current_theme := current_theme self |}
  end.

Definition addBase (base_obj : gmap string string) : M unit :=
  do! self := get_provider in
  put_provider
    {| _observers := _observers self;
       base_theme := assigned (Some (mkTheme "_base_" base_obj));
       themes := themes self;
       current_theme := current_theme self |}.

Definition addObserver (callback : Callback) : M unit :=
  do! self := get_provider in
  put_provider
    {| _observers := _observers self ++ [callback];
       base_theme := base_theme self;
       themes := themes self;
       current_theme := current_theme self |}.

Definition set_current_theme (t : Theme) : M unit :=
  do! self := get_provider in
  put_provider
    {| _observers := _observers self;
       base_theme := base_theme self;
       themes := themes self;
       current_theme := Some t |}.

Definition getThemes : M (list string) :=
  do! self := get_provider in ret (keys (themes self)).

Definition getCurrentTheme : M (option Theme) :=
  do! self := get_provider in ret (current_theme self).

(** *** Themeable *)

(** The instance at an address. No program holds an address where no
    instance lives; the model answers [TypeError] there. *)
Definition get_object (self : nat) : M Themeable :=
  do! e := get_env in
  match nth_error (objects e) self with
  | Some o => ret o
  | None => raise TypeError
  end.

Fixpoint update {A : Type} (i : nat) (x : A) (l : list A) : list A :=
  match l, i with
  | [], _ => []
  | _ :: l', O => x :: l'
  | y :: l', S i' => y :: update i' x l'
  end.

Definition put_object (self : nat) (o : Themeable) : M unit :=
  do! e := get_env in
  put_env (mkEnv (update self o (objects e)) (applied e)).

(** A new instance, before [__init__] has assigned anything. *)
Definition alloc : M nat :=
  do! e := get_env in
  put_env (mkEnv (objects e ++ [mkThemeable None None]) (applied e)) ;;
  ret (List.length (objects e)).

Definition setWidget (self : nat) (widget : option nat) : M unit :=
  do! o := get_object self in
  put_object self (mkThemeable (style_sheet o) widget).

Definition setThemeStyle (self : nat) (style_sheet : option string) : M unit :=
  do! o := get_object self in
  put_object self (mkThemeable style_sheet (widget o)).

(** [QWidget.setStyleSheet], of the toolkit. *)
Definition setStyleSheet (widget : nat) (style : string) : M unit :=
  do! e := get_env in
  put_env (mkEnv (objects e) (applied e ++ [(widget, style)])).

(** [getThemeStyle]; its second guard, on [self.provider], never fires. *)
Definition getThemeStyle (self : nat) : M string :=
  do! o := get_object self in
  match style_sheet o with
  | None => raise (Exception "No StyleSheet set")
  | Some sheet =>
      do! p := get_provider in
      lift (_replacePlaceholders p sheet)
  end.

(** [self.widget.setStyleSheet(self.getThemeStyle())]: the method is
    looked up on the widget before the argument is evaluated. *)
Definition onThemeChange (self : nat) : M unit :=
  do! o := get_object self in
  match widget o with
  | None => raise AttributeError
  | Some wid =>
      do! style := getThemeStyle self in
      setStyleSheet wid style
  end.

Definition Themeable__init__ (widget : option nat) (style_sheet : option string)
  : M nat :=
  do! self := alloc in
  addObserver (bound_onThemeChange self) ;;
  setThemeStyle self style_sheet ;;
  setWidget self widget ;;
  onThemeChange self ;;
  ret self.

(** ** Notification *)

Section Registry.

(** The callables of the application that are registered as observers.
    An observer reads the registry and acts on the bindings and the
    widgets; one that calls the registry back while it is notified is
    outside the model. *)
Variable foreign_call : nat -> ThemeProvider -> Env -> Env * outcome unit.

Definition call (callback : Callback) : M unit :=
  match callback with
  | bound_onThemeChange self => onThemeChange self
  | foreign k =>
      fun w =>
        let '(e, r) := foreign_call k (provider w) (env w) in
        (mkWorld (provider w) e (calls w), r)
  end.

Definition invoke (callback : Callback) : M unit :=
  fun w => call callback (mkWorld (provider w) (env w) (calls w ++ [callback])).

(** The loop of [notifyObservers]. *)
Fixpoint notify (observers : list Callback) : M unit :=
  match observers with
  | [] => ret tt
  | callback :: observers' => invoke callback ;; notify observers'
  end.

Definition notifyObservers : M unit :=
  do! self := get_provider in notify (_observers self).

Definition setTheme (name : string) : M unit :=
  do! self := get_provider in
  match dict_get name (themes self) with
  | None => raise (KeyError name)
  | Some t => set_current_theme t ;; notifyObservers
  end.

Definition incrementTheme : M unit :=
  do! self := get_provider in
  let themes := keys (themes self) in
  match current_theme self with
  | None => raise AttributeError
  | Some current =>
      match index (name current) themes with
      | None => raise ValueError
      | Some current_index =>
          match themes with
          | [] => raise ZeroDivisionError
          | _ :: _ =>
              let next_index := ((current_index + 1) mod List.length themes)%nat in
              match nth_error themes next_index with
              | None => raise IndexError
              | Some next => setTheme next
              end
          end
      end
  end.

(** *** Programs over the public interface *)

Inductive Op : Type :=
| OpAddTheme (name : string) (theme_obj : gmap string string)
| OpAddBase (base_obj : gmap string string)
| OpSetTheme (name : string)
| OpIncrementTheme
| OpAddObserver (callback : Callback)
| OpThemeable (widget : option nat) (style_sheet : option string)
| OpSetWidget (self : nat) (widget : option nat)
| OpSetThemeStyle (self : nat) (style_sheet : option string).

Definition step (op : Op) : M unit :=
  match op with
  | OpAddTheme name theme_obj => addTheme name theme_obj
  | OpAddBase base_obj => addBase base_obj
  | OpSetTheme name => setTheme name
  | OpIncrementTheme => incrementTheme
  | OpAddObserver callback => addObserver callback
  | OpThemeable widget style_sheet => Themeable__init__ widget style_sheet ;; ret tt
  | OpSetWidget self widget => setWidget self widget
  | OpSetThemeStyle self style_sheet => setThemeStyle self style_sheet
  end.

(** The world after a program; a call that raises is caught by the
    application, which goes on. *)
Definition run (ops : list Op) (w : World) : World :=
  fold_left (fun w op => fst (step op w)) ops w.

Definition reachable (w : World) : Prop := exists ops, w = run ops initial_world.

End Registry.

(** ** The words of the specification *)

(** A hexadecimal digit, of either case. *)
Definition is_hex_digit (c : ascii) : bool :=
  Py.in_range 48 57 c || Py.in_range 97 102 c || Py.in_range 65 70 c.

Definition lower (c : ascii) : ascii :=
  if Py.in_range 65 90 c then ascii_of_N (N_of_ascii c + 32) else c.

Fixpoint string_forallb (p : ascii -> bool) (s : string) : bool :=
  match s with
  | EmptyString => true
  | String c s' => p c && string_forallb p s'
  end.

Fixpoint string_map (f : ascii -> ascii) (s : string) : string :=
  match s with
  | EmptyString => EmptyString
  | String c s' => String (f c) (string_map f s')
  end.

(** The digits of a color: the string without its optional leading [#]. *)
Definition spec_digits (s : string) : string :=
  match s with
  | String "#" s' => s'
  | _ => s
  end.

(** "An optional leading [#] followed by exactly 6 hexadecimal digits". *)
Definition spec_valid_color (s : string) : bool :=
  Nat.eqb (String.length (spec_digits s)) 6
  && string_forallb is_hex_digit (spec_digits s).

(** "Lowercase, [#]-prefixed". *)
Definition spec_normalize (s : string) : string :=
  String "#" (string_map lower (spec_digits s)).

(** What [int(_, 16)] reads among the strings of two characters at most: a
    digit or two, or a digit with a blank on either side or a sign before. *)
Definition is_sign (c : ascii) : bool := Ascii.eqb c "+" || Ascii.eqb c "-".

Definition readable (t : string) : bool :=
  match t with
  | String a EmptyString => is_hex_digit a
  | String a (String b EmptyString) =>
      (is_hex_digit a && is_hex_digit b) || (Py.is_space a && is_hex_digit b)
      || (is_hex_digit a && Py.is_space b) || (is_sign a && is_hex_digit b)
  | _ => false
  end.

Definition slices_readable (t : string) : bool :=
  readable (Py.slice 0 2 t) && readable (Py.slice 2 2 t) && readable (Py.slice 4 2 t).


(** The name of the active theme, if one is set, is a key of [themes]. *)
Definition active_is_named (p : ThemeProvider) : Prop :=
  forall t, current_theme p = Some t -> In (name t) (keys (themes p)).


(** An observer that does nothing, and one that raises. *)
Definition quiet (k : nat) (p : ThemeProvider) (e : Env) : Env * outcome unit :=
  (e, Return tt).

Definition loud (k : nat) (p : ThemeProvider) (e : Env) : Env * outcome unit :=
  match k with
  | O => (e, Return tt)
  | S _ => (e, Raise (Exception "observer"))
  end.

(** ** Auxiliary definitions of the proofs *)

Definition all_ascii : list ascii := map ascii_of_nat (seq 0 256).

(** Two hexadecimal digits are read as a byte, and the byte is written as
    the same two digits in lower case. *)
Definition pair_ok (a b : ascii) : bool :=
  implb (is_hex_digit a && is_hex_digit b)
    match Py.int (String a (String b "")) 16 with
    | Return v =>
        (0 <=? v) && (v <? 256)
        && String.eqb (Py.format_02x v) (String (lower a) (String (lower b) ""))
    | Raise _ => false
    end.

(** [int(_, 16)] on a string [t]: it returns when [t] is [readable], and
    raises [ValueError] when it is not. *)
Definition agrees (t : string) : bool :=
  match Py.int t 16 with
  | Return _ => readable t
  | Raise ValueError => negb (readable t)
  | Raise _ => false
  end.

Definition white : Theme := mkTheme "white" {[ "bg" := "#ffffff" ]}.

Definition white_provider : ThemeProvider :=
  {| _observers := []; base_theme := assigned None;
     themes := [("white", white)]; current_theme := Some white |}.

(** A computation that leaves the registry and the record of calls alone. *)
Definition frames {A : Type} (m : M A) : Prop :=
  forall w, provider (fst (m w)) = provider w /\ calls (fst (m w)) = calls w.

Definition with_current (t : Theme) (p : ThemeProvider) : ThemeProvider :=
  {| _observers := _observers p; base_theme := base_theme p;
     themes := themes p; current_theme := Some t |}.

(** Every theme is stored under its own name. *)
Definition well_named (p : ThemeProvider) : Prop :=
  forall k t, In (k, t) (themes p) -> name t = k.

(** A computation that leaves [themes] and [current_theme] alone. *)
Definition keeps {A : Type} (m : M A) : Prop :=
  forall w,
    themes (provider (fst (m w))) = themes (provider w)
    /\ current_theme (provider (fst (m w))) = current_theme (provider w).

(** ** Worlds to try the properties on *)

Definition dark_obj : gmap string string := {[ "bg" := "#222222" ]}.

Definition three_themes : list Op :=
  [OpAddBase ∅; OpAddTheme "light" {[ "bg" := "#eeeeee" ]};
   OpAddTheme "dark" dark_obj; OpAddTheme "solarized" {[ "bg" := "#002b36" ]}].

(** Three themes, a binding and an observer of the application; the last
    theme is the active one. *)
Definition solarized_world : World :=
  run quiet
    (three_themes
     ++ [OpSetTheme "light"; OpThemeable (Some 1%nat) (Some "background: theme.bg[500]");
         OpAddObserver (foreign 0); OpSetTheme "solarized"])
    initial_world.

(** One theme, selected. *)
Definition dark_world : World :=
  run quiet [OpAddBase ∅; OpAddTheme "dark" dark_obj; OpSetTheme "dark"] initial_world.


(** Three observers, the second of which raises. *)
Definition loud_world : World :=
  run loud
    [OpAddBase ∅; OpAddTheme "dark" dark_obj;
     OpAddObserver (foreign 0); OpAddObserver (foreign 1); OpAddObserver (foreign 2)]
    initial_world.

(** ** More auxiliary definitions *)

(** A color in its normal form: a [#] and six lower-case hexadecimal
    digits. *)
Definition canonical (s : string) : bool :=
  spec_valid_color s && String.eqb (spec_normalize s) s.

(** A byte is written as two lower-case digits that read as the byte. *)
Definition byte_ok (n : nat) : bool :=
  match Py.format_02x (Z.of_nat n) with
  | String a (String b EmptyString) =>
      is_hex_digit a && is_hex_digit b
      && Ascii.eqb (lower a) a && Ascii.eqb (lower b) b
      && match Py.int (String a (String b "")) 16 with
         | Return v => v =? Z.of_nat n
         | Raise _ => false
         end
  | _ => false
  end.

(** The characters of a slice that [int(_, 16)] reads. *)
Definition slice_char (c : ascii) : bool :=
  is_hex_digit c || Py.is_space c || is_sign c.

Definition slice_chars : list ascii := List.filter slice_char all_ascii.

Definition in_channel_range (o : outcome Z) : bool :=
  match o with
  | Return v => (-15 <=? v) && (v <=? 255)
  | Raise _ => true
  end.

(** The channels that [hex_to_rgb] can return. *)
Definition channels : list Z := map (fun n => Z.of_nat n - 15) (seq 0 271).

(** The world after a widget was given a style sheet. *)
Definition restyled (w : World) (wid : nat) (style : string) : World :=
  mkWorld (provider w)
    (mkEnv (objects (env w)) (applied (env w) ++ [(wid, style)])%list)
    (calls w).

(** The world after [addObserver]. *)
Definition observed (w : World) (callback : Callback) : World :=
  mkWorld
    {| _observers := (_observers (provider w) ++ [callback])%list;
       base_theme := base_theme (provider w);
       themes := themes (provider w);
       current_theme := current_theme (provider w) |}
    (env w) (calls w).

(** The world with one more binding. *)
Definition allocated (w : World) (o : Themeable) : World :=
  mkWorld (provider w)
    (mkEnv (objects (env w) ++ [o])%list (applied (env w)))
    (calls w).

(** A word of the pattern, [\w+], and a number, [\d+]. *)
Definition is_identifier (k : string) : bool :=
  negb (String.eqb k "") && string_forallb Py.is_word k.

Definition is_number (ds : string) : bool :=
  negb (String.eqb ds "") && string_forallb Py.is_decimal ds.

(** A text that cannot go on a placeholder [theme.<k>]: it starts neither
    with a word character nor with a bracket. *)
Definition ends_placeholder (rest : string) : bool :=
  match rest with
  | EmptyString => true
  | String c _ => negb (Py.is_word c) && negb (Ascii.eqb c "[")
  end.

(** The style that a binding gives its widget under a registry. *)
Definition rendering (p : ThemeProvider) (objs : list Themeable) (callback : Callback)
  : option (nat * string) :=
  match callback with
  | bound_onThemeChange self =>
      match nth_error objs self with
      | Some (mkThemeable (Some sheet) (Some wid)) =>
          match _replacePlaceholders p sheet with
          | Return style => Some (wid, style)
          | Raise _ => None
          end
      | _ => None
      end
  | foreign _ => None
  end.

(** The registry of a reachable world: no two themes under one name, each
    theme under its own, and a base that is missing or a theme. *)
Definition well_formed (p : ThemeProvider) : Prop :=
  NoDup (keys (themes p))
  /\ well_named p
  /\ (base_theme p = absent
      \/ exists base_obj, base_theme p = assigned (Some (mkTheme "_base_" base_obj))).

(** An observer that is the [onThemeChange] of a binding. *)
Definition is_bound (callback : Callback) : bool :=
  match callback with
  | bound_onThemeChange _ => true
  | foreign _ => false
  end.

(** Two bindings on three themes, the first theme active. *)
Definition bound_world : World :=
  run quiet
    (three_themes
     ++ [OpSetTheme "light"; OpThemeable (Some 1%nat) (Some "background: theme.bg");
         OpThemeable (Some 2%nat) (Some "color: theme.bg[500]")])%list
    initial_world.

(** A theme whose attribute is no color. *)
Definition red_provider : ThemeProvider :=
  {| _observers := []; base_theme := absent; themes := [];
     current_theme := Some (mkTheme "red" {[ "bg" := "red" ]}) |}.

(** A placeholder whose modifier has more digits than [int] reads. *)
Definition long_modifier (m : Re.Match) : bool :=
  match Re.group2 m with
  | Some mod_ =>
      Py.max_str_digits <? Z.of_nat (String.length (Py.remove "]" (Py.remove "[" mod_)))
  | None => false
  end.

Fixpoint repeat_char (c : ascii) (n : nat) : string :=
  match n with
  | O => EmptyString
  | S n' => String c (repeat_char c n')
  end.

(** A style sheet whose placeholder has a modifier of [n] digits. *)
Definition sheet_of_digits (n : nat) : string :=
  "color: theme.fg[" ++ repeat_char "9" n ++ "]".

(** What the observers do when they are called one after the other under
    the registry [p], from the bindings and widgets [e]: the
    [onThemeChange] of a binding, or the callable of the application, each
    on what the one before it left, up to the first that raises. *)
Fixpoint observers_effect
    (foreign_call : nat -> ThemeProvider -> Env -> Env * outcome unit)
    (observers : list Callback) (p : ThemeProvider) (e : Env) : Env * outcome unit :=
  match observers with
  | [] => (e, Return tt)
  | bound_onThemeChange self :: observers' =>
      match onThemeChange self (mkWorld p e []) with
      | (w', Return _) => observers_effect foreign_call observers' p (env w')
      | (w', Raise x) => (env w', Raise x)
      end
  | foreign k :: observers' =>
      match foreign_call k p e with
      | (e', Return _) => observers_effect foreign_call observers' p e'
      | (e', Raise x) => (e', Raise x)
      end
  end.

(** * Properties *)

(** ** The codec *)

Lemma all_ascii_complete (c : ascii) : In c all_ascii.
Proof.
  unfold all_ascii. rewrite <- (ascii_nat_embedding c).
  apply in_map, in_seq. pose proof (nat_ascii_bounded c). lia.
Qed.

Lemma forall_ascii (p : ascii -> bool) :
  forallb p all_ascii = true -> forall c, p c = true.
Proof.
  intros H c. rewrite forallb_forall in H. apply H, all_ascii_complete.
Qed.

Lemma forall_ascii2 (p : ascii -> ascii -> bool) :
  forallb (fun a => forallb (p a) all_ascii) all_ascii = true ->
  forall a b, p a b = true.
Proof.
  intros H a b.
  apply (forall_ascii (p a)). apply (forall_ascii (fun a => forallb (p a) all_ascii) H).
Qed.

Lemma int_hex_pair (a b : ascii) :
  is_hex_digit a = true -> is_hex_digit b = true ->
  exists v, Py.int (String a (String b "")) 16 = Return v
            /\ 0 <= v < 256
            /\ Py.format_02x v = String (lower a) (String (lower b) "").
Proof.
  intros Ha Hb.
  assert (H : pair_ok a b = true).
  { apply forall_ascii2. vm_compute. reflexivity. }
  unfold pair_ok in H. rewrite Ha, Hb in H. simpl implb in H.
  destruct (Py.int (String a (String b "")) 16) as [v|e]; [|discriminate].
  exists v. apply andb_prop in H as [H1 H3]. apply andb_prop in H1 as [H1 H2].
  apply String.eqb_eq in H3. repeat split; auto; lia.
Qed.

Lemma hex_digit_not_hash (c : ascii) :
  is_hex_digit c = true -> Ascii.eqb c "#" = false.
Proof.
  intros H.
  assert (G : implb (is_hex_digit c) (negb (Ascii.eqb c "#")) = true).
  { clear H. revert c. apply forall_ascii. vm_compute. reflexivity. }
  rewrite H in G. simpl in G. now apply negb_true_iff in G.
Qed.

Lemma spec_digits_cases (s : string) :
  s = String "#" (spec_digits s) \/ spec_digits s = s.
Proof.
  destruct s as [|c s']; [now right|].
  destruct c as [[] [] [] [] [] [] [] []]; simpl; auto.
Qed.

Lemma lstrip_hex_digit (c : ascii) (s : string) :
  is_hex_digit c = true -> Py.lstrip "#" (String c s) = String c s.
Proof.
  intros H. simpl. now rewrite (hex_digit_not_hash c H).
Qed.

(** The shape of a valid color: six digits, after one [#] or none. *)
Lemma spec_valid_color_shape (s : string) :
  spec_valid_color s = true ->
  exists a b c d e f,
    spec_digits s = String a (String b (String c (String d (String e (String f "")))))
    /\ Py.lstrip "#" s = spec_digits s
    /\ is_hex_digit a = true /\ is_hex_digit b = true /\ is_hex_digit c = true
    /\ is_hex_digit d = true /\ is_hex_digit e = true /\ is_hex_digit f = true.
Proof.
  unfold spec_valid_color. intros H. apply andb_prop in H as [Hlen Hall].
  apply Nat.eqb_eq in Hlen.
  destruct (spec_digits s) as [|a [|b [|c [|d [|e [|f [|g t]]]]]]] eqn:E;
    simpl in Hlen; try discriminate Hlen.
  simpl in Hall.
  repeat match type of Hall with
         | (_ && _)%bool = true => apply andb_prop in Hall as [? Hall]
         end.
  exists a, b, c, d, e, f. repeat split; auto.
  destruct (spec_digits_cases s) as [Hs | Hs].
  - rewrite Hs at 1. rewrite E. simpl Py.lstrip at 1.
    change (Py.lstrip "#" (String a (String b (String c (String d (String e (String f ""))))))
            = String a (String b (String c (String d (String e (String f "")))))).
    now apply lstrip_hex_digit.
  - rewrite E in Hs. rewrite <- Hs. now apply lstrip_hex_digit.
Qed.

(** Decoding a valid color gives three bytes, and encoding them gives the
    color in its normal form. *)
Lemma hex_to_rgb_valid (s : string) :
  spec_valid_color s = true ->
  exists r g b,
    hex_to_rgb s = Return (r, g, b)
    /\ 0 <= r < 256 /\ 0 <= g < 256 /\ 0 <= b < 256
    /\ rgb_to_hex (r, g, b) = spec_normalize s.
Proof.
  intros H.
  destruct (spec_valid_color_shape s H)
    as (a & b & c & d & e & f & E & L & Ha & Hb & Hc & Hd & He & Hf).
  destruct (int_hex_pair a b Ha Hb) as (r & Hr & Br & Fr).
  destruct (int_hex_pair c d Hc Hd) as (g & Hg & Bg & Fg).
  destruct (int_hex_pair e f He Hf) as (bl & Hbl & Bbl & Fbl).
  exists r, g, bl. repeat split; try lia.
  - unfold hex_to_rgb. rewrite L, E.
    change (Py.slice 0 2 (String a (String b (String c (String d (String e (String f "")))))))
      with (String a (String b "")).
    change (Py.slice 2 2 (String a (String b (String c (String d (String e (String f "")))))))
      with (String c (String d "")).
    change (Py.slice 4 2 (String a (String b (String c (String d (String e (String f "")))))))
      with (String e (String f "")).
    rewrite Hr, Hg, Hbl. reflexivity.
  - unfold rgb_to_hex, spec_normalize. rewrite Fr, Fg, Fbl, E. reflexivity.
Qed.

(** C6. For every string made of an optional leading [#] and exactly six
    hexadecimal digits of any case, [rgb_to_hex] of [hex_to_rgb] is the
    string in its normal form: lower-case digits after a [#]. *)
Theorem rgb_to_hex_hex_to_rgb (s : string) :
  spec_valid_color s = true ->
  (let! rgb := hex_to_rgb s in Return (rgb_to_hex rgb)) = Return (spec_normalize s).
Proof.
  intros H. destruct (hex_to_rgb_valid s H) as (r & g & b & E & _ & _ & _ & N).
  rewrite E. cbn [bind]. now rewrite N.
Qed.

Lemma rgb_to_hex_hex_to_rgb_witness :
  spec_valid_color "#1A2b3C" = true
  /\ (let! rgb := hex_to_rgb "#1A2b3C" in Return (rgb_to_hex rgb)) = Return "#1a2b3c".
Proof.
  split; [reflexivity | exact (rgb_to_hex_hex_to_rgb "#1A2b3C" eq_refl)].
Defined.

Lemma agrees_short (t : string) : (String.length t <= 2)%nat -> agrees t = true.
Proof.
  destruct t as [|a [|b [|c t]]]; simpl String.length; intros H; try lia.
  - reflexivity.
  - revert a. apply forall_ascii. vm_compute. reflexivity.
  - revert a b. apply (forall_ascii2 (fun a b => agrees (String a (String b "")))).
    vm_compute. reflexivity.
Qed.

Lemma length_slice (i n : nat) (s : string) :
  (String.length (Py.slice i n s) <= n)%nat.
Proof.
  unfold Py.slice. revert i n. induction s as [|c s IH]; intros [|i] [|n]; simpl; try lia.
  - specialize (IH 0%nat n). lia.
  - apply (IH i 0%nat).
  - apply (IH i (S n)).
Qed.

Lemma int_slice (i : nat) (s : string) :
  match Py.int (Py.slice i 2 s) 16 with
  | Return _ => readable (Py.slice i 2 s) = true
  | Raise e => e = ValueError /\ readable (Py.slice i 2 s) = false
  end.
Proof.
  pose proof (agrees_short _ (length_slice i 2 s)) as H. unfold agrees in H.
  destruct (Py.int (Py.slice i 2 s) 16) as [v|e]; [exact H|].
  destruct e; try discriminate H. split; [reflexivity|]. now apply negb_true_iff.
Qed.

(** C7, as the code has it. [hex_to_rgb] accepts every valid color, and
    other strings too. On a string of characters below 256, which are the
    strings of this development, it returns exactly when each of the three
    two-character slices of the string without its leading [#]s is one
    that [int(_, 16)] reads; when it raises, it raises [ValueError], and
    the string is not a valid color. It does not look beyond the sixth
    character, nor count the [#]s. Beyond 255 [int] reads the digits and
    the blanks of other scripts as well: those strings are not covered. *)
Theorem hex_to_rgb_accepts (s : string) :
  match hex_to_rgb s with
  | Return _ => slices_readable (Py.lstrip "#" s) = true
  | Raise e =>
      e = ValueError
      /\ slices_readable (Py.lstrip "#" s) = false
      /\ spec_valid_color s = false
  end.
Proof.
  destruct (hex_to_rgb s) as [rgb|e] eqn:E.
  - unfold hex_to_rgb in E. unfold slices_readable.
    pose proof (int_slice 0 (Py.lstrip "#" s)) as H0.
    pose proof (int_slice 2 (Py.lstrip "#" s)) as H2.
    pose proof (int_slice 4 (Py.lstrip "#" s)) as H4.
    destruct (Py.int (Py.slice 0 2 (Py.lstrip "#" s)) 16); [|discriminate E].
    destruct (Py.int (Py.slice 2 2 (Py.lstrip "#" s)) 16); [|discriminate E].
    destruct (Py.int (Py.slice 4 2 (Py.lstrip "#" s)) 16); [|discriminate E].
    now rewrite H0, H2, H4.
  - assert (V : spec_valid_color s = false).
    { destruct (spec_valid_color s) eqn:V; [|reflexivity].
      destruct (hex_to_rgb_valid s V) as (r & g & b & R & _). congruence. }
    unfold hex_to_rgb in E. unfold slices_readable.
    pose proof (int_slice 0 (Py.lstrip "#" s)) as H0.
    pose proof (int_slice 2 (Py.lstrip "#" s)) as H2.
    pose proof (int_slice 4 (Py.lstrip "#" s)) as H4.
    destruct (Py.int (Py.slice 0 2 (Py.lstrip "#" s)) 16).
    + destruct (Py.int (Py.slice 2 2 (Py.lstrip "#" s)) 16).
      * destruct (Py.int (Py.slice 4 2 (Py.lstrip "#" s)) 16); [discriminate E|].
        cbn [bind] in E. injection E as <-. destruct H4 as [-> ->].
        repeat split; auto. now rewrite !andb_false_r.
      * cbn [bind] in E. injection E as <-. destruct H2 as [-> ->].
        repeat split; auto. now rewrite andb_false_r.
    + cbn [bind] in E. injection E as <-. destruct H0 as [-> ->].
      repeat split; auto.
Qed.

(** Eight hexadecimal digits after the [#] are no valid color, and
    [hex_to_rgb] decodes them; so it does five digits, two [#]s, and a
    sign or a blank in a slice. *)
Lemma hex_to_rgb_accepts_more :
  spec_valid_color "#ffffffff" = false
  /\ hex_to_rgb "#ffffffff" = Return (255, 255, 255)
  /\ hex_to_rgb "fffff" = Return (255, 255, 15)
  /\ hex_to_rgb "##ffffff" = Return (255, 255, 255)
  /\ hex_to_rgb "-f f+f" = Return (-15, 15, 15).
Proof. repeat split; vm_compute; reflexivity. Qed.

(** ** Darkening *)

(** A factor of 0 leaves a byte as it is: [c * 1.0] is exact. *)
Lemma darken_0 (c : Z) : 0 <= c < 256 -> darken 0 c = Return c.
Proof.
  intros H.
  assert (G : forallb (fun n => match darken 0 (Z.of_nat n) with
                                | Return v => v =? Z.of_nat n
                                | Raise _ => false
                                end) (seq 0 256) = true)
    by (vm_compute; reflexivity).
  rewrite forallb_forall in G. specialize (G (Z.to_nat c)).
  rewrite Z2Nat.id in G by lia.
  assert (I : In (Z.to_nat c) (seq 0 256)) by (apply in_seq; lia).
  specialize (G I). destruct (darken 0 c) as [v|e]; [|discriminate G].
  apply Z.eqb_eq in G. now subst.
Qed.

(** C8, as the code has it. For every string made of an optional leading
    [#] and exactly six hexadecimal digits, [modifyColor] with factor 0
    returns the color in its normal form, lower-case digits after a [#]:
    the color itself when it is written that way. *)
Theorem modifyColor_0 (c : string) :
  spec_valid_color c = true -> modifyColor c 0 = Return (spec_normalize c).
Proof.
  intros H. destruct (hex_to_rgb_valid c H) as (r & g & b & E & Br & Bg & Bb & N).
  unfold modifyColor. rewrite E. cbn [bind].
  rewrite (darken_0 r Br), (darken_0 g Bg), (darken_0 b Bb). cbn [bind].
  now rewrite N.
Qed.

Lemma modifyColor_0_witness :
  spec_valid_color "#c0ffee" = true /\ modifyColor "#c0ffee" 0 = Return "#c0ffee".
Proof.
  split; [reflexivity | exact (modifyColor_0 "#c0ffee" eq_refl)].
Defined.

(** An upper-case color is decodable and comes back in lower case, one
    without [#] comes back with it. *)
Lemma modifyColor_0_changes :
  hex_to_rgb "#FFFFFF" = Return (255, 255, 255)
  /\ modifyColor "#FFFFFF" 0 = Return "#ffffff"
  /\ modifyColor "#FFFFFF" 0 <> Return "#FFFFFF"
  /\ modifyColor "c0ffee" 0 = Return "#c0ffee".
Proof. repeat split; try (vm_compute; reflexivity). vm_compute. discriminate. Qed.

(** ** The placeholder resolver *)

(** The one round that [re.sub] makes on [theme.bg[500]]. *)
Lemma sub_theme_bg_500 (repl : Re.Match -> outcome string) :
  Re.sub repl "theme.bg[500]"
  = (let! r := repl (Re.mkMatch "bg" (Some "[500]") "") in Return (r ++ "")).
Proof. reflexivity. Qed.

(** C3, as the code has it. With an active theme whose attribute [bg] is
    [#ffffff], the style sheet [theme.bg[500]] resolves to [#7f7f7f]: each
    channel is [int(255 * 0.5)], that is 127. *)
Theorem replacePlaceholders_bg_500 (p : ThemeProvider) (t : Theme) :
  current_theme p = Some t ->
  theme_obj t !! "bg" = Some "#ffffff" ->
  _replacePlaceholders p "theme.bg[500]" = Return "#7f7f7f".
Proof.
  intros Hc Hbg. unfold _replacePlaceholders. rewrite sub_theme_bg_500.
  unfold replacer. cbn [Re.group1 Re.group2].
  change (Py.int (Py.remove "]" (Py.remove "[" "[500]")) 10) with (Return (A := Z) 500).
  cbn [bind]. unfold getAttr. rewrite Hc, Hbg. cbn [default Z.eqb].
  change (modifyColor "#ffffff" 500) with (Return (A := string) "#7f7f7f").
  reflexivity.
Qed.

Lemma replacePlaceholders_bg_500_witness :
  _replacePlaceholders white_provider "theme.bg[500]" = Return "#7f7f7f".
Proof.
  apply (replacePlaceholders_bg_500 white_provider white); reflexivity.
Defined.

(** The result is not [#808080], the byte that rounding to nearest gives. *)
Lemma replacePlaceholders_bg_500_not_808080 :
  _replacePlaceholders white_provider "theme.bg[500]" <> Return "#808080".
Proof. vm_compute. discriminate. Qed.

(** ** What a binding touches *)

Open Scope list_scope.

Create HintDb frames.

Lemma frames_ret {A : Type} (a : A) : frames (ret a).
Proof. intros w. now split. Qed.

Lemma frames_raise {A : Type} (e : exn) : frames (raise (A := A) e).
Proof. intros w. now split. Qed.

Lemma frames_lift {A : Type} (o : outcome A) : frames (lift o).
Proof. intros w. now split. Qed.

Lemma frames_get_env : frames get_env.
Proof. intros w. now split. Qed.

Lemma frames_get_provider : frames get_provider.
Proof. intros w. now split. Qed.

Lemma frames_put_env (e : Env) : frames (put_env e).
Proof. intros w. now split. Qed.

Lemma frames_bindM {A B : Type} (m : M A) (k : A -> M B) :
  frames m -> (forall a, frames (k a)) -> frames (bindM m k).
Proof.
  intros Hm Hk w. unfold bindM. specialize (Hm w).
  destruct (m w) as [w1 [a|e]]; simpl in *.
  - destruct (Hk a w1) as [H1 H2]. destruct Hm as [H3 H4]. split; congruence.
  - exact Hm.
Qed.

#[local] Hint Resolve frames_ret frames_raise frames_lift frames_get_env
  frames_get_provider frames_put_env : frames.

Ltac frame :=
  repeat first
    [ apply frames_bindM; [|intros ?]
    | progress auto with frames
    | match goal with
      | |- frames (match ?x with _ => _ end) => destruct x
      end ].

Lemma frames_get_object (self : nat) : frames (get_object self).
Proof. unfold get_object. frame. Qed.

Lemma frames_put_object (self : nat) (o : Themeable) : frames (put_object self o).
Proof. unfold put_object. frame. Qed.

#[local] Hint Resolve frames_get_object frames_put_object : frames.

Lemma frames_alloc : frames alloc.
Proof. unfold alloc. frame. Qed.

Lemma frames_setWidget (self : nat) (widget : option nat) :
  frames (setWidget self widget).
Proof. unfold setWidget. frame. Qed.

Lemma frames_setThemeStyle (self : nat) (style_sheet : option string) :
  frames (setThemeStyle self style_sheet).
Proof. unfold setThemeStyle. frame. Qed.

Lemma frames_setStyleSheet (widget : nat) (style : string) :
  frames (setStyleSheet widget style).
Proof. unfold setStyleSheet. frame. Qed.

Lemma frames_getThemeStyle (self : nat) : frames (getThemeStyle self).
Proof. unfold getThemeStyle. frame. Qed.

#[local] Hint Resolve frames_alloc frames_setWidget frames_setThemeStyle
  frames_setStyleSheet frames_getThemeStyle : frames.

Lemma frames_onThemeChange (self : nat) : frames (onThemeChange self).
Proof. unfold onThemeChange. frame. Qed.

#[local] Hint Resolve frames_onThemeChange : frames.

Section Notification.

Variable foreign_call : nat -> ThemeProvider -> Env -> Env * outcome unit.

Abbreviation call := (call foreign_call).
Abbreviation invoke := (invoke foreign_call).
Abbreviation notify := (notify foreign_call).
Abbreviation notifyObservers := (notifyObservers foreign_call).
Abbreviation setTheme := (setTheme foreign_call).
Abbreviation incrementTheme := (incrementTheme foreign_call).
Abbreviation step := (step foreign_call).
Abbreviation run := (run foreign_call).
Abbreviation reachable := (reachable foreign_call).

Lemma frames_call (callback : Callback) : frames (call callback).
Proof.
  destruct callback as [self|k]; simpl; [auto with frames|].
  intros w. destruct (foreign_call k (provider w) (env w)). now split.
Qed.

(** A call is written down, and leaves the registry alone. *)
Lemma invoke_spec (callback : Callback) (w : World) :
  provider (fst (invoke callback w)) = provider w
  /\ calls (fst (invoke callback w)) = calls w ++ [callback].
Proof.
  unfold invoke.
  destruct (frames_call callback (mkWorld (provider w) (env w) (calls w ++ [callback])))
    as [H1 H2].
  now rewrite H1, H2.
Qed.

(** The loop calls a prefix of the observers, in their order: all of
    them when it returns, those up to the one that raised otherwise. *)
Lemma notify_spec (observers : list Callback) (w : World) :
  provider (fst (notify observers w)) = provider w
  /\ match snd (notify observers w) with
     | Return _ => calls (fst (notify observers w)) = calls w ++ observers
     | Raise e =>
         exists pre callback post w1,
           observers = pre ++ callback :: post
           /\ notify pre w = (w1, Return tt)
           /\ snd (invoke callback w1) = Raise e
           /\ fst (notify observers w) = fst (invoke callback w1)
     end.
Proof.
  revert w. induction observers as [|callback observers IH]; intros w.
  - simpl. split; [reflexivity | now rewrite app_nil_r].
  - cbn [notify]. unfold bindM.
    destruct (invoke_spec callback w) as [Hp Hc].
    destruct (invoke callback w) as [w1 [[]|e]] eqn:E; cbn [fst snd] in *.
    + destruct (IH w1) as [IHp IHc]. split; [congruence|].
      destruct (snd (notify observers w1)) as [[]|e] eqn:R.
      * rewrite IHc, Hc, <- app_assoc. reflexivity.
      * destruct IHc as (pre & cb & post & w2 & -> & Hpre & Hcb & Hfst).
        exists (callback :: pre), cb, post, w2. repeat split; auto.
        cbn [notify]. unfold bindM. now rewrite E.
    + split; [exact Hp|].
      exists [], callback, observers, w. repeat split; auto; now rewrite E.
Qed.

Lemma notify_app (pre post : list Callback) (w : World) :
  notify (pre ++ post) w = (notify pre ;; notify post) w.
Proof.
  revert w. induction pre as [|c pre IH]; intros w.
  - reflexivity.
  - cbn [app notify]. unfold bindM in *.
    destruct (invoke c w) as [w1 [[]|e]]; [apply IH | reflexivity].
Qed.

(** *** [setTheme] *)

(** [setTheme] on a registered name: the assignment, then the loop. *)
Lemma setTheme_known (name : string) (t : Theme) (w : World) :
  dict_get name (themes (provider w)) = Some t ->
  setTheme name w
  = notify (_observers (provider w))
      (mkWorld (with_current t (provider w)) (env w) (calls w)).
Proof.
  intros H. unfold setTheme, bindM, get_provider. rewrite H. reflexivity.
Qed.

Lemma setTheme_provider (name : string) (w : World) :
  match dict_get name (themes (provider w)) with
  | None => setTheme name w = (w, Raise (KeyError name))
  | Some t => provider (fst (setTheme name w)) = with_current t (provider w)
  end.
Proof.
  destruct (dict_get name (themes (provider w))) as [t|] eqn:H.
  - rewrite (setTheme_known name t w H).
    now destruct (notify_spec (_observers (provider w))
                    (mkWorld (with_current t (provider w)) (env w) (calls w))).
  - unfold setTheme, bindM, get_provider. now rewrite H.
Qed.

(** C5. [setTheme] on a name that is no key of [themes] raises
    [KeyError], the exception the code has for an unknown theme; the
    active theme is the one it was, no observer was called, and nothing
    else has changed either. *)
Theorem setTheme_unknown (name : string) (w : World) :
  dict_get name (themes (provider w)) = None ->
  snd (setTheme name w) = Raise (KeyError name)
  /\ current_theme (provider (fst (setTheme name w))) = current_theme (provider w)
  /\ calls (fst (setTheme name w)) = calls w
  /\ fst (setTheme name w) = w.
Proof.
  intros H. pose proof (setTheme_provider name w) as E. rewrite H in E.
  rewrite E. now repeat split.
Qed.

(** C9. When [setTheme] is called with a registered name and an observer
    raises, the observers before it having returned, [setTheme] raises
    the same exception; the active theme is the newly selected one, and
    the calls made are those of the observers up to the one that raised:
    none of the later ones. *)
Theorem setTheme_observer_raises
    (name : string) (t : Theme) (w w1 : World)
    (pre post : list Callback) (callback : Callback) (e : exn) :
  dict_get name (themes (provider w)) = Some t ->
  _observers (provider w) = pre ++ callback :: post ->
  notify pre (mkWorld (with_current t (provider w)) (env w) (calls w))
  = (w1, Return tt) ->
  snd (invoke callback w1) = Raise e ->
  snd (setTheme name w) = Raise e
  /\ current_theme (provider (fst (setTheme name w))) = Some t
  /\ calls (fst (setTheme name w)) = calls w ++ pre ++ [callback].
Proof.
  intros Hname Hobs Hpre Hcb.
  assert (S : setTheme name w = (fst (invoke callback w1), Raise e)).
  { rewrite (setTheme_known name t w Hname), Hobs, notify_app.
    unfold bindM. rewrite Hpre. cbn [notify]. unfold bindM.
    destruct (invoke callback w1) as [w2 [[]|e']]; cbn [fst snd] in *;
      [discriminate Hcb | now injection Hcb as ->]. }
  rewrite S. cbn [fst snd].
  pose proof (notify_spec pre (mkWorld (with_current t (provider w)) (env w) (calls w)))
    as [Pp Pc].
  rewrite Hpre in Pp, Pc. cbn [fst snd provider calls] in Pp, Pc.
  destruct (invoke_spec callback w1) as [Ip Ic].
  repeat split.
  - now rewrite Ip, Pp.
  - now rewrite Ic, Pc, <- app_assoc.
Qed.

(** *** The active theme and the stored ones *)

Lemma frames_keeps {A : Type} (m : M A) : frames m -> keeps m.
Proof. intros H w. destruct (H w) as [-> _]. now split. Qed.

Lemma keeps_bindM {A B : Type} (m : M A) (k : A -> M B) :
  keeps m -> (forall a, keeps (k a)) -> keeps (bindM m k).
Proof.
  intros Hm Hk w. unfold bindM. specialize (Hm w).
  destruct (m w) as [w1 [a|e]]; cbn [fst] in *; [|exact Hm].
  destruct (Hk a w1) as [H1 H2]. destruct Hm as [H3 H4]. split; congruence.
Qed.

Lemma keeps_addObserver (callback : Callback) : keeps (addObserver callback).
Proof. intros w. now split. Qed.

Lemma keeps_addBase (base_obj : gmap string string) : keeps (addBase base_obj).
Proof. intros w. now split. Qed.

Lemma keeps_Themeable__init__ (widget : option nat) (style_sheet : option string) :
  keeps (Themeable__init__ widget style_sheet).
Proof.
  unfold Themeable__init__.
  repeat first
    [ apply keeps_addObserver
    | apply frames_keeps; solve [auto with frames]
    | apply keeps_bindM; [|intros ?] ].
Qed.

Lemma dict_get_In {V : Type} (k : string) (v : V) (d : list (string * V)) :
  dict_get k d = Some v -> In (k, v) d.
Proof.
  induction d as [|[k' v'] d IH]; simpl; [discriminate|].
  destruct (String.eqb k' k) eqn:E.
  - intros [= ->]. apply String.eqb_eq in E as ->. now left.
  - right. auto.
Qed.

Lemma In_dict_set {V : Type} (k k' : string) (v v' : V) (d : list (string * V)) :
  In (k', v') (dict_set k v d) -> (k' = k /\ v' = v) \/ In (k', v') d.
Proof.
  induction d as [|[k0 v0] d IH]; simpl.
  - intros [[= <- <-]|[]]. now left.
  - destruct (String.eqb k0 k) eqn:E; simpl.
    + apply String.eqb_eq in E as ->. intros [[= <- <-]|H]; auto.
    + intros [H|H]; auto. destruct (IH H); auto.
Qed.


Lemma keys_dict_set {V : Type} (k k' : string) (v : V) (d : list (string * V)) :
  In k' (keys d) -> In k' (keys (dict_set k v d)).
Proof.
  unfold keys. induction d as [|[k0 v0] d IH]; simpl; [tauto|].
  destruct (String.eqb k0 k); simpl; tauto.
Qed.

(** What an operation does to [themes] and [current_theme]: nothing, or
    it stores a theme under its name, or it selects a stored theme. *)
Lemma step_provider (op : Op) (w : World) :
  let p := provider w in
  let p' := provider (fst (step op w)) in
  (themes p' = themes p /\ current_theme p' = current_theme p)
  \/ (exists n obj0 obj,
         op = OpAddTheme n obj0
         /\ themes p' = dict_set n (mkTheme n obj) (themes p)
         /\ current_theme p' = current_theme p)
  \/ (exists n t,
         dict_get n (themes p) = Some t
         /\ themes p' = themes p /\ current_theme p' = Some t).
Proof.
  assert (S : forall n,
             (themes (provider (fst (setTheme n w))) = themes (provider w)
              /\ current_theme (provider (fst (setTheme n w))) = current_theme (provider w))
             \/ (exists k t,
                    dict_get k (themes (provider w)) = Some t
                    /\ themes (provider (fst (setTheme n w))) = themes (provider w)
                    /\ current_theme (provider (fst (setTheme n w))) = Some t)).
  { intros n. pose proof (setTheme_provider n w) as P.
    destruct (dict_get n (themes (provider w))) as [t|] eqn:D.
    - right. exists n, t. rewrite P. now repeat split.
    - left. rewrite P. now split. }
  intros p p'. subst p p'. destruct op as [n obj|b|n| |c|wd sh|self wd|self sh]; cbn [step].
  - unfold addTheme, bindM, get_provider.
    destruct (base_theme (provider w)) as [|base]; [now left|].
    right; left. destruct base as [[bn bobj]|]; eauto 6.
  - left. apply keeps_addBase.
  - destruct (S n) as [H|H]; auto.
  - unfold incrementTheme, bindM, get_provider, raise.
    destruct (current_theme (provider w)) as [current|] eqn:C; [|now left].
    destruct (index (name current) (keys (themes (provider w)))); [|now left].
    destruct (keys (themes (provider w))) as [|k ks]; [now left|].
    destruct (nth_error (k :: ks) _) as [next|]; [|now left].
    destruct (S next) as [H|H]; auto.
  - left. apply keeps_addObserver.
  - left. apply keeps_bindM; [apply keeps_Themeable__init__ | intros ?; now split].
  - left. apply frames_keeps. auto with frames.
  - left. apply frames_keeps. auto with frames.
Qed.

Lemma step_well_named (op : Op) (w : World) :
  well_named (provider w) -> well_named (provider (fst (step op w))).
Proof.
  intros W k t. destruct (step_provider op w) as [[-> _]|[(n & o0 & o & _ & -> & _)|(_ & _ & _ & -> & _)]];
    auto.
  intros H. apply In_dict_set in H as [[-> ->]|H]; auto.
Qed.

Lemma step_named (op : Op) (w : World) :
  well_named (provider w) -> active_is_named (provider w) ->
  active_is_named (provider (fst (step op w))).
Proof.
  intros W A t.
  destruct (step_provider op w) as [[-> ->]|[(n & o0 & o & _ & -> & ->)|(n & t' & D & -> & ->)]].
  - apply A.
  - intros H. apply keys_dict_set, A, H.
  - intros [= <-]. apply dict_get_In in D. rewrite (W _ _ D).
    apply (in_map fst) in D. exact D.
Qed.


Lemma run_invariant (ops : list Op) (w : World) :
  well_named (provider w) /\ active_is_named (provider w) ->
  well_named (provider (run ops w)) /\ active_is_named (provider (run ops w)).
Proof.
  revert w. induction ops as [|op ops IH]; intros w [W A]; [now split|].
  cbn [run fold_left]. apply IH. split; [apply step_well_named | apply step_named]; auto.
Qed.

Lemma reachable_invariant (w : World) :
  reachable w -> well_named (provider w) /\ active_is_named (provider w).
Proof.
  intros [ops ->]. apply run_invariant. split.
  - intros k t [].
  - intros t [=].
Qed.


End Notification.

(** ** Construction of a binding *)

Lemma literal_length (lit s s1 : string) :
  Re.literal lit s = Some s1 ->
  String.length s = (String.length lit + String.length s1)%nat.
Proof.
  revert s. induction lit as [|a lit IH]; intros [|b s]; simpl; try discriminate.
  - now intros [= <-].
  - now intros [= <-].
  - destruct (Ascii.eqb a b); [|discriminate]. intros H. now rewrite (IH s H).
Qed.

Lemma span_length (p : ascii -> bool) (s a b : string) :
  Re.span p s = (a, b) ->
  String.length s = (String.length a + String.length b)%nat.
Proof.
  revert a b. induction s as [|c s IH]; simpl; intros a b.
  - now intros [= <- <-].
  - destruct (p c); [|now intros [= <- <-]].
    destruct (Re.span p s) as [a' b']. intros [= <- <-]. simpl.
    now rewrite (IH a' b').
Qed.

(** A match takes seven characters at least. *)
Lemma match_here_shorter (s : string) (m : Re.Match) :
  Re.match_here s = Some m ->
  (String.length (Re.after m) < String.length s)%nat.
Proof.
  unfold Re.match_here.
  destruct (Re.literal "theme." s) as [s1|] eqn:L; [|discriminate].
  apply literal_length in L. simpl in L.
  destruct (Re.span Py.is_word s1) as [[|a1 attribute] s2] eqn:W; [discriminate|].
  apply span_length in W. simpl in W.
  assert (N : Some (Re.mkMatch (String a1 attribute) None s2) = Some m ->
              (String.length (Re.after m) < String.length s)%nat).
  { intros [= <-]. simpl. lia. }
  destruct s2 as [|c2 s3]; [exact N|].
  destruct (Ascii.eqb c2 "[") eqn:B.
  - apply Ascii.eqb_eq in B. subst c2.
    destruct (Re.span Py.is_decimal s3) as [ds s4] eqn:D.
    apply span_length in D.
    destruct ds as [|d ds]; [exact N|].
    destruct s4 as [|c4 s4]; [exact N|].
    destruct (Ascii.eqb c4 "]") eqn:B4.
    + apply Ascii.eqb_eq in B4. subst c4. intros [= <-]. simpl in *. lia.
    + intros H. apply N. rewrite <- H.
      destruct c4 as [[] [] [] [] [] [] [] []]; try reflexivity; discriminate B4.
  - intros H. apply N. rewrite <- H.
    destruct c2 as [[] [] [] [] [] [] [] []]; try reflexivity; discriminate B.
Qed.

(** Any fuel above the length of the string gives the same result. *)
Lemma sub_loop_fuel (repl : Re.Match -> outcome string) (n : nat) :
  forall (s : string) (f1 f2 : nat),
    (String.length s <= n)%nat ->
    (String.length s < f1)%nat -> (String.length s < f2)%nat ->
    Re.sub_loop f1 repl s = Re.sub_loop f2 repl s.
Proof.
  induction n as [|n IH]; intros s [|f1] [|f2] Hn H1 H2; try lia.
  - destruct s; [reflexivity | simpl in Hn; lia].
  - cbn [Re.sub_loop]. destruct (Re.match_here s) as [m|] eqn:E.
    + pose proof (match_here_shorter s m E) as Hm.
      destruct (repl m) as [r|e]; [|reflexivity]. cbn [bind].
      now rewrite (IH (Re.after m) f1 f2) by lia.
    + destruct s as [|c s]; [reflexivity|]. simpl in Hn, H1, H2.
      now rewrite (IH s f1 f2) by lia.
Qed.

(** The equation of [re.sub]: the fuel is out of the way. *)
Lemma sub_step (repl : Re.Match -> outcome string) (s : string) :
  Re.sub repl s
  = match Re.match_here s with
    | Some m =>
        let! r := repl m in
        let! t := Re.sub repl (Re.after m) in
        Return (r ++ t)%string
    | None =>
        match s with
        | EmptyString => Return EmptyString
        | String c s' => let! t := Re.sub repl s' in Return (String c t)
        end
    end.
Proof.
  unfold Re.sub at 1. cbn [Re.sub_loop].
  destruct (Re.match_here s) as [m|] eqn:E.
  - pose proof (match_here_shorter s m E) as Hm. unfold Re.sub.
    now rewrite (sub_loop_fuel repl (String.length s) (Re.after m)
                   (String.length s) (S (String.length (Re.after m)))) by lia.
  - destruct s; reflexivity.
Qed.

(** Where the pattern matches and the replacement raises, [re.sub] raises. *)
Lemma sub_raises (repl : Re.Match -> outcome string) (e : exn) (s : string) :
  (forall s' m, Re.match_here s' = Some m -> repl m = Raise e) ->
  Re.search s = true -> Re.sub repl s = Raise e.
Proof.
  intros Hrepl. induction s as [|c s IH]; intros H; rewrite sub_step.
  - discriminate H.
  - cbn [Re.search] in H. destruct (Re.match_here (String c s)) as [m|] eqn:E.
    + now rewrite (Hrepl _ _ E).
    + now rewrite (IH H).
Qed.

(** Where the pattern does not match, [re.sub] returns the string. *)
Lemma sub_no_match (repl : Re.Match -> outcome string) (s : string) :
  Re.search s = false -> Re.sub repl s = Return s.
Proof.
  induction s as [|c s IH]; intros H; rewrite sub_step.
  - reflexivity.
  - cbn [Re.search] in H. destruct (Re.match_here (String c s)); [discriminate H|].
    now rewrite (IH H).
Qed.

Lemma span_forallb (p : ascii -> bool) (s a b : string) :
  Re.span p s = (a, b) -> string_forallb p a = true.
Proof.
  revert a b. induction s as [|c s IH]; simpl; intros a b.
  - now intros [= <- _].
  - destruct (p c) eqn:P; [|now intros [= <- _]].
    destruct (Re.span p s) as [a' b']. intros [= <- _]. simpl.
    now rewrite P, (IH a' b').
Qed.

Lemma decimal_facts (c : ascii) :
  Py.is_decimal c = true ->
  Ascii.eqb c "[" = false /\ Ascii.eqb c "]" = false /\ Ascii.eqb c "_" = false
  /\ (Py.digit_value c <? 10) = true
  /\ In c ["0"; "1"; "2"; "3"; "4"; "5"; "6"; "7"; "8"; "9"]%char.
Proof.
  intros H.
  assert (G : implb (Py.is_decimal c)
                (negb (Ascii.eqb c "[") && negb (Ascii.eqb c "]") && negb (Ascii.eqb c "_")
                 && (Py.digit_value c <? 10)
                 && existsb (Ascii.eqb c) ["0"; "1"; "2"; "3"; "4"; "5"; "6"; "7"; "8"; "9"]%char)
              = true).
  { clear H. revert c. apply forall_ascii. vm_compute. reflexivity. }
  rewrite H in G. cbn [implb] in G.
  repeat match type of G with
         | (_ && _)%bool = true => apply andb_prop in G as [G ?]
         end.
  repeat split; try now apply negb_true_iff.
  - assumption.
  - match goal with
    | X : existsb _ _ = true |- _ => apply existsb_exists in X as (d & I & E)
    end.
    apply Ascii.eqb_eq in E. now subst.
Qed.

(** The digits between the brackets of [group(2)]. *)
Lemma remove_brackets (ds : string) :
  string_forallb Py.is_decimal ds = true ->
  Py.remove "]" (Py.remove "[" ("[" ++ ds ++ "]")%string) = ds.
Proof.
  intros H.
  change (Py.remove "[" ("[" ++ ds ++ "]")%string) with (Py.remove "[" (ds ++ "]")%string).
  assert (E : forall t, string_forallb Py.is_decimal t = true ->
                        Py.remove "[" (t ++ "]")%string = (t ++ "]")%string).
  { induction t as [|d t IH]; simpl; [reflexivity|].
    intros G. apply andb_prop in G as [Gd Gt].
    destruct (decimal_facts d Gd) as (-> & _). now rewrite (IH Gt). }
  rewrite (E ds H). clear E.
  induction ds as [|d ds IH]; simpl; [reflexivity|].
  simpl in H. apply andb_prop in H as [Hd Hds].
  destruct (decimal_facts d Hd) as (_ & -> & _). now rewrite (IH Hds).
Qed.

Lemma scan_decimals (ds : string) (acc : Z) :
  string_forallb Py.is_decimal ds = true ->
  exists v, Py.scan_digits 10 false true acc ds = Some (true, v, EmptyString).
Proof.
  revert acc. induction ds as [|d ds IH]; simpl; intros acc H; [eauto|].
  apply andb_prop in H as [Hd Hds].
  destruct (decimal_facts d Hd) as (_ & _ & -> & -> & _). now apply IH.
Qed.

Lemma count_decimals (ds : string) :
  string_forallb Py.is_decimal ds = true ->
  Py.count_digits 10 ds = Z.of_nat (String.length ds).
Proof.
  induction ds as [|d ds IH]; intros H; [reflexivity|].
  cbn [string_forallb] in H. apply andb_prop in H as [Hd Hds].
  destruct (decimal_facts d Hd) as (_ & _ & E & L & _).
  cbn [Py.count_digits String.length]. rewrite E, L, (IH Hds). lia.
Qed.

(** [int] reads a run of decimal digits, as long as the run is no longer
    than the limit. *)
Lemma int_decimals (ds : string) :
  is_number ds = true ->
  exists v,
    Py.int ds 10
    = if Py.max_str_digits <? Z.of_nat (String.length ds)
      then Raise ValueError else Return v.
Proof.
  unfold is_number. intros H. apply andb_prop in H as [Hn H].
  destruct ds as [|d ds]; [discriminate Hn|]. clear Hn.
  pose proof (count_decimals _ H) as C.
  cbn [string_forallb] in H. apply andb_prop in H as [Hd Hds].
  destruct (decimal_facts d Hd) as (_ & _ & E & L & I).
  destruct (scan_decimals ds (0 * 10 + Py.digit_value d) Hds) as [v Sc].
  exists v.
  assert (U : Py.int (String d ds) 10
              = match Py.scan_digits 10 false false 0 (String d ds) with
                | None => Raise ValueError
                | Some (seen, v', rest) =>
                    if negb seen then Raise ValueError
                    else if Py.max_str_digits <? Py.count_digits 10 (String d ds)
                    then Raise ValueError
                    else match Py.lstrip_space rest with
                         | EmptyString => Return v'
                         | String _ _ => Raise ValueError
                         end
                end).
  { clear - I. simpl in I.
    repeat match type of I with
           | _ \/ _ => destruct I as [<- | I]
           end; try contradiction; reflexivity. }
  rewrite U, C. cbn [Py.scan_digits]. rewrite E, L, Sc. reflexivity.
Qed.

(** What [match_here] gives for [group(2)]: a number between brackets. *)
Lemma match_here_group2 (s : string) (m : Re.Match) (g : string) :
  Re.match_here s = Some m -> Re.group2 m = Some g ->
  exists ds, is_number ds = true /\ Py.remove "]" (Py.remove "[" g) = ds.
Proof.
  intros Hm Eg. unfold Re.match_here in Hm.
  destruct (Re.literal "theme." s) as [s1|]; [|discriminate Hm].
  destruct (Re.span Py.is_word s1) as [[|a1 attribute] s2]; [discriminate Hm|].
  assert (N : Some (Re.mkMatch (String a1 attribute) None s2) = Some m -> False).
  { intros [= <-]. discriminate Eg. }
  destruct s2 as [|c2 s3]; [now destruct (N Hm)|].
  destruct (Ascii.eqb c2 "[") eqn:B.
  - apply Ascii.eqb_eq in B. subst c2.
    destruct (Re.span Py.is_decimal s3) as [ds s4] eqn:Sp.
    apply span_forallb in Sp.
    destruct ds as [|d ds]; [now destruct (N Hm)|].
    destruct s4 as [|c4 s4]; [now destruct (N Hm)|].
    destruct (Ascii.eqb c4 "]") eqn:B4.
    + apply Ascii.eqb_eq in B4. subst c4. injection Hm as <-.
      cbn [Re.group2] in Eg. injection Eg as <-.
      exists (String d ds). split; [exact Sp | now apply remove_brackets].
    + exfalso. apply N. rewrite <- Hm.
      destruct c4 as [[] [] [] [] [] [] [] []]; try reflexivity; discriminate B4.
  - exfalso. apply N. rewrite <- Hm.
    destruct c2 as [[] [] [] [] [] [] [] []]; try reflexivity; discriminate B.
Qed.

(** No theme is active: whatever the match, the replacement raises. It is
    [int] that raises where the modifier is too long for it, and the lookup
    otherwise. *)
Lemma replacer_no_theme (p : ThemeProvider) (s : string) (m : Re.Match) :
  current_theme p = None ->
  Re.match_here s = Some m ->
  replacer p m = Raise (if long_modifier m then ValueError else Exception "No Theme set").
Proof.
  intros Hc Hm.
  assert (G : forall key modifier, getAttr p key modifier = Raise (Exception "No Theme set")).
  { intros. unfold getAttr. now rewrite Hc. }
  unfold replacer, long_modifier. destruct (Re.group2 m) as [g|] eqn:Eg; [|apply G].
  destruct (match_here_group2 s m g Hm Eg) as (ds & Hds & ->).
  destruct (int_decimals ds Hds) as [v ->].
  destruct (Py.max_str_digits <? Z.of_nat (String.length ds)); [reflexivity | apply G].
Qed.

(** Where the replacement raises on the first match, [re.sub] raises. *)
Lemma sub_first (repl : Re.Match -> outcome string) (e : exn) (s : string) (m : Re.Match) :
  Re.first_match s = Some m -> repl m = Raise e -> Re.sub repl s = Raise e.
Proof.
  intros H R. induction s as [|c s IH]; rewrite sub_step.
  - discriminate H.
  - cbn [Re.first_match] in H. destruct (Re.match_here (String c s)) as [m'|] eqn:E.
    + injection H as ->. now rewrite R.
    + now rewrite (IH H).
Qed.

Lemma first_match_here (s : string) (m : Re.Match) :
  Re.first_match s = Some m -> exists s', Re.match_here s' = Some m.
Proof.
  induction s as [|c s IH]; intros H.
  - discriminate H.
  - cbn [Re.first_match] in H. destruct (Re.match_here (String c s)) as [m'|] eqn:E.
    + injection H as ->. eauto.
    + auto.
Qed.

Lemma first_match_search (s : string) :
  Re.search s = match Re.first_match s with Some _ => true | None => false end.
Proof.
  induction s as [|c s IH]; [reflexivity|].
  cbn [Re.search Re.first_match]. now destruct (Re.match_here (String c s)).
Qed.

(** No theme is active and the style sheet has a placeholder: resolving
    it raises at the first one. *)
Lemma replacePlaceholders_no_theme (p : ThemeProvider) (sheet : string) (m : Re.Match) :
  current_theme p = None -> Re.first_match sheet = Some m ->
  _replacePlaceholders p sheet
  = Raise (if long_modifier m then ValueError else Exception "No Theme set").
Proof.
  intros Hc Hs. destruct (first_match_here sheet m Hs) as [s' Hm].
  apply (sub_first _ _ _ m Hs). now apply (replacer_no_theme p s' m).
Qed.

Lemma nth_error_snoc {A : Type} (l : list A) (x : A) :
  nth_error (l ++ [x]) (List.length l) = Some x.
Proof. induction l as [|y l IH]; simpl; auto. Qed.

Lemma update_snoc {A : Type} (l : list A) (x y : A) :
  update (List.length l) y (l ++ [x]) = l ++ [y].
Proof. induction l as [|z l IH]; simpl; [reflexivity | now rewrite IH]. Qed.

Lemma bindM_Return {A B : Type} (m : M A) (k : A -> M B) (w w1 : World) (a : A) :
  m w = (w1, Return a) -> bindM m k w = k a w1.
Proof. intros H. unfold bindM. now rewrite H. Qed.

Lemma bindM_Raise {A B : Type} (m : M A) (k : A -> M B) (w w1 : World) (e : exn) :
  m w = (w1, Raise e) -> bindM m k w = (w1, Raise e).
Proof. intros H. unfold bindM. now rewrite H. Qed.

Lemma get_object_eq (self : nat) (o : Themeable) (w : World) :
  nth_error (objects (env w)) self = Some o -> get_object self w = (w, Return o).
Proof. intros H. unfold get_object, bindM, get_env. now rewrite H. Qed.

Lemma setThemeStyle_eq (self : nat) (sheet : option string) (o : Themeable) (w : World) :
  nth_error (objects (env w)) self = Some o ->
  setThemeStyle self sheet w
  = (mkWorld (provider w)
       (mkEnv (update self (mkThemeable sheet (widget o)) (objects (env w)))
          (applied (env w)))
       (calls w), Return tt).
Proof.
  intros H. unfold setThemeStyle. now rewrite (bindM_Return _ _ _ _ _ (get_object_eq _ _ _ H)).
Qed.

Lemma setWidget_eq (self : nat) (wd : option nat) (o : Themeable) (w : World) :
  nth_error (objects (env w)) self = Some o ->
  setWidget self wd w
  = (mkWorld (provider w)
       (mkEnv (update self (mkThemeable (style_sheet o) wd) (objects (env w)))
          (applied (env w)))
       (calls w), Return tt).
Proof.
  intros H. unfold setWidget. now rewrite (bindM_Return _ _ _ _ _ (get_object_eq _ _ _ H)).
Qed.

(** A binding whose style sheet does not resolve: [onThemeChange] raises
    what the resolver raises, and the widget is not restyled. *)
Lemma onThemeChange_raises
    (self wid : nat) (sheet : string) (o : Themeable) (e : exn) (w : World) :
  nth_error (objects (env w)) self = Some o ->
  widget o = Some wid -> style_sheet o = Some sheet ->
  _replacePlaceholders (provider w) sheet = Raise e ->
  onThemeChange self w = (w, Raise e).
Proof.
  intros H Hw Hs R. unfold onThemeChange.
  rewrite (bindM_Return _ _ _ _ _ (get_object_eq _ _ _ H)), Hw.
  apply bindM_Raise. unfold getThemeStyle.
  rewrite (bindM_Return _ _ _ _ _ (get_object_eq _ _ _ H)), Hs.
  unfold bindM, get_provider, lift. now rewrite R.
Qed.

(** C1, as the code has it. [Themeable.__init__] with a widget and a style
    sheet that has a placeholder, while no theme is active, raises, and
    the binding is registered all the same: [addObserver] ran first, so
    that the list of observers is the one before with the [onThemeChange]
    of the new binding at its end. What it raises comes from the first
    placeholder of the style sheet: [Exception("No Theme set")], or the
    [ValueError] of [int] where the modifier has more digits than [int]
    reads, which is found before the lookup. *)
Theorem Themeable_init_no_theme
    (w : World) (wid : nat) (sheet : string) (m : Re.Match) :
  current_theme (provider w) = None ->
  Re.first_match sheet = Some m ->
  snd (Themeable__init__ (Some wid) (Some sheet) w)
  = Raise (if long_modifier m then ValueError else Exception "No Theme set")
  /\ _observers (provider (fst (Themeable__init__ (Some wid) (Some sheet) w)))
     = _observers (provider w)
       ++ [bound_onThemeChange (List.length (objects (env w)))].
Proof.
  intros Hc Hs.
  set (self := List.length (objects (env w))).
  set (p' := {| _observers := _observers (provider w) ++ [bound_onThemeChange self];
                base_theme := base_theme (provider w);
                themes := themes (provider w);
                current_theme := current_theme (provider w) |}).
  set (world := fun o => mkWorld p' (mkEnv (objects (env w) ++ [o]) (applied (env w))) (calls w)).
  set (e := if long_modifier m then ValueError else Exception "No Theme set").
  assert (R : _replacePlaceholders p' sheet = Raise e)
    by now apply replacePlaceholders_no_theme.
  assert (E : Themeable__init__ (Some wid) (Some sheet) w
              = (world (mkThemeable (Some sheet) (Some wid)), Raise e)).
  { unfold Themeable__init__.
    rewrite (bindM_Return _ _ w
               (mkWorld (provider w)
                  (mkEnv (objects (env w) ++ [mkThemeable None None]) (applied (env w)))
                  (calls w)) self) by reflexivity.
    rewrite (bindM_Return _ _ _ (world (mkThemeable None None)) tt) by reflexivity.
    rewrite (bindM_Return _ _ _ (world (mkThemeable (Some sheet) None)) tt).
    2:{ rewrite (setThemeStyle_eq self (Some sheet) (mkThemeable None None))
          by apply nth_error_snoc.
        unfold world, self. cbn [provider env calls objects applied widget].
        now rewrite update_snoc. }
    rewrite (bindM_Return _ _ _ (world (mkThemeable (Some sheet) (Some wid))) tt).
    2:{ rewrite (setWidget_eq self (Some wid) (mkThemeable (Some sheet) None))
          by apply nth_error_snoc.
        unfold world, self. cbn [provider env calls objects applied style_sheet].
        now rewrite update_snoc. }
    apply bindM_Raise.
    apply (onThemeChange_raises self wid sheet (mkThemeable (Some sheet) (Some wid)));
      auto. apply nth_error_snoc. }
  rewrite E. now split.
Qed.

(** ** [addTheme] before [addBase] *)

(** Where [base_theme] was never assigned, [addTheme] raises
    [AttributeError] and stores nothing. *)
Lemma addTheme_base_absent (name : string) (theme_obj : gmap string string) (w : World) :
  base_theme (provider w) = absent ->
  addTheme name theme_obj w = (w, Raise AttributeError).
Proof. intros H. unfold addTheme, bindM, get_provider. now rewrite H. Qed.

(** Where [base_theme] is [None], [addTheme] stores the given attributes. *)
Lemma addTheme_base_None (name : string) (theme_obj : gmap string string) (w : World) :
  base_theme (provider w) = assigned None ->
  snd (addTheme name theme_obj w) = Return tt
  /\ dict_get name (themes (provider (fst (addTheme name theme_obj w))))
     = Some (mkTheme name theme_obj).
Proof.
  intros H. unfold addTheme, bindM, get_provider. rewrite H. cbn. split; [reflexivity|].
  induction (themes (provider w)) as [|[k v] d IH]; simpl.
  - now rewrite String.eqb_refl.
  - destruct (String.eqb k name) eqn:E; simpl; now rewrite E.
Qed.

(** C4. On the registry as [__new__] leaves it, where no base theme has
    been set, [addTheme] does not store the theme: it raises
    [AttributeError] on reading [self.base_theme] and leaves [themes]
    empty. *)
Theorem addTheme_without_base :
  addTheme "dark" {[ "bg" := "#222222" ]} initial_world
  = (initial_world, Raise AttributeError)
  /\ themes (provider (fst (addTheme "dark" {[ "bg" := "#222222" ]} initial_world))) = [].
Proof. split; reflexivity. Qed.

(** ** The properties on the worlds above *)

Lemma Themeable_init_no_theme_witness :
  snd (Themeable__init__ (Some 7%nat) (Some "color: theme.fg") initial_world)
  = Raise (Exception "No Theme set")
  /\ _observers
       (provider (fst (Themeable__init__ (Some 7%nat) (Some "color: theme.fg") initial_world)))
     = [] ++ [bound_onThemeChange 0].
Proof.
  apply (Themeable_init_no_theme initial_world 7 "color: theme.fg"
           (Re.mkMatch "fg" None ""));
    reflexivity.
Defined.

(** The construction raises, and the list of observers is not the one
    before it. *)
Lemma Themeable_init_registers_first :
  current_theme (provider initial_world) = None
  /\ snd (Themeable__init__ (Some 7%nat) (Some "color: theme.fg") initial_world)
     = Raise (Exception "No Theme set")
  /\ _observers
       (provider (fst (Themeable__init__ (Some 7%nat) (Some "color: theme.fg") initial_world)))
     <> _observers (provider initial_world).
Proof. repeat split; try reflexivity. vm_compute. discriminate. Qed.

(** A modifier of 4300 digits is read and the lookup fails; one of 4301
    digits is not read. *)
Lemma Themeable_init_long_modifier :
  snd (Themeable__init__ (Some 7%nat) (Some (sheet_of_digits 4300)) initial_world)
  = Raise (Exception "No Theme set")
  /\ snd (Themeable__init__ (Some 7%nat) (Some (sheet_of_digits 4301)) initial_world)
     = Raise ValueError.
Proof. split; vm_compute; reflexivity. Qed.

(** Nor does every construction raise while no theme is active: a style
    sheet without a placeholder is applied as it is. *)
Lemma Themeable_init_no_placeholder :
  snd (Themeable__init__ (Some 7%nat) (Some "color: red") initial_world) = Return 0%nat
  /\ applied (env (fst (Themeable__init__ (Some 7%nat) (Some "color: red") initial_world)))
     = [(7%nat, "color: red")].
Proof. split; reflexivity. Qed.




Lemma setTheme_unknown_witness :
  snd (setTheme quiet "contrast" solarized_world) = Raise (KeyError "contrast")
  /\ current_theme (provider (fst (setTheme quiet "contrast" solarized_world)))
     = current_theme (provider solarized_world)
  /\ calls (fst (setTheme quiet "contrast" solarized_world)) = calls solarized_world
  /\ fst (setTheme quiet "contrast" solarized_world) = solarized_world.
Proof.
  apply (setTheme_unknown quiet "contrast" solarized_world). vm_compute. reflexivity.
Defined.

Lemma setTheme_observer_raises_witness :
  snd (setTheme loud "dark" loud_world) = Raise (Exception "observer")
  /\ current_theme (provider (fst (setTheme loud "dark" loud_world)))
     = Some (mkTheme "dark" (merged ∅ dark_obj))
  /\ calls (fst (setTheme loud "dark" loud_world)) = [] ++ [foreign 0] ++ [foreign 1].
Proof.
  apply (setTheme_observer_raises loud "dark" (mkTheme "dark" (merged ∅ dark_obj)) loud_world
           (fst (notify loud [foreign 0]
                   (mkWorld (with_current (mkTheme "dark" (merged ∅ dark_obj)) (provider loud_world))
                      (env loud_world) (calls loud_world))))
           [foreign 0] [foreign 2] (foreign 1) (Exception "observer"));
    vm_compute; reflexivity.
Defined.

(** From the last theme [incrementTheme] goes to the first, and the
    binding and the observer are called, in that order. *)
Lemma incrementTheme_wraps :
  option_map name (current_theme (provider solarized_world)) = Some "solarized"
  /\ snd (incrementTheme quiet solarized_world) = Return tt
  /\ option_map name (current_theme (provider (fst (incrementTheme quiet solarized_world))))
     = Some "light"
  /\ calls (fst (incrementTheme quiet solarized_world))
     = calls solarized_world ++ [bound_onThemeChange 0; foreign 0]
  /\ last (applied (env (fst (incrementTheme quiet solarized_world))))
     = Some (1%nat, "background: #777777").
Proof. repeat split; vm_compute; reflexivity. Qed.

(** ** More on the codec *)

Lemma format_byte (v : Z) :
  0 <= v < 256 ->
  exists a b,
    Py.format_02x v = String a (String b "")
    /\ is_hex_digit a = true /\ is_hex_digit b = true
    /\ lower a = a /\ lower b = b
    /\ Py.int (String a (String b "")) 16 = Return v.
Proof.
  intros H.
  assert (G : forallb byte_ok (seq 0 256) = true) by (vm_compute; reflexivity).
  rewrite forallb_forall in G. specialize (G (Z.to_nat v)).
  assert (I : In (Z.to_nat v) (seq 0 256)) by (apply in_seq; lia).
  specialize (G I). unfold byte_ok in G. rewrite Z2Nat.id in G by lia.
  destruct (Py.format_02x v) as [|a [|b [|c t]]]; try discriminate G.
  exists a, b.
  repeat match type of G with
         | (_ && _)%bool = true => apply andb_prop in G as [G ?]
         end.
  destruct (Py.int (String a (String b "")) 16) as [u|e]; [|discriminate].
  repeat split; auto; try now apply Ascii.eqb_eq.
  f_equal. now apply Z.eqb_eq.
Qed.

(** X1. Three bytes written by [rgb_to_hex] are read back by [hex_to_rgb],
    and what [rgb_to_hex] writes for them is a color in its normal form. *)
Theorem hex_to_rgb_rgb_to_hex (r g b : Z) :
  0 <= r < 256 -> 0 <= g < 256 -> 0 <= b < 256 ->
  hex_to_rgb (rgb_to_hex (r, g, b)) = Return (r, g, b)
  /\ canonical (rgb_to_hex (r, g, b)) = true.
Proof.
  intros Hr Hg Hb.
  destruct (format_byte r Hr) as (r1 & r2 & Fr & Hr1 & Hr2 & Lr1 & Lr2 & Ir).
  destruct (format_byte g Hg) as (g1 & g2 & Fg & Hg1 & Hg2 & Lg1 & Lg2 & Ig).
  destruct (format_byte b Hb) as (b1 & b2 & Fb & Hb1 & Hb2 & Lb1 & Lb2 & Ib).
  unfold rgb_to_hex. rewrite Fr, Fg, Fb.
  change ("#" ++ String r1 (String r2 "") ++ String g1 (String g2 "")
          ++ String b1 (String b2 ""))%string
    with (String "#" (String r1 (String r2 (String g1 (String g2 (String b1 (String b2 ""))))))).
  split.
  - unfold hex_to_rgb.
    change (Py.lstrip "#" (String "#" (String r1 (String r2 (String g1 (String g2 (String b1 (String b2 ""))))))))
      with (Py.lstrip "#" (String r1 (String r2 (String g1 (String g2 (String b1 (String b2 ""))))))).
    rewrite (lstrip_hex_digit r1 _ Hr1).
    change (Py.slice 0 2 (String r1 (String r2 (String g1 (String g2 (String b1 (String b2 "")))))))
      with (String r1 (String r2 "")).
    change (Py.slice 2 2 (String r1 (String r2 (String g1 (String g2 (String b1 (String b2 "")))))))
      with (String g1 (String g2 "")).
    change (Py.slice 4 2 (String r1 (String r2 (String g1 (String g2 (String b1 (String b2 "")))))))
      with (String b1 (String b2 "")).
    now rewrite Ir, Ig, Ib.
  - unfold canonical, spec_valid_color, spec_normalize.
    change (spec_digits (String "#" (String r1 (String r2 (String g1 (String g2 (String b1 (String b2 ""))))))))
      with (String r1 (String r2 (String g1 (String g2 (String b1 (String b2 "")))))).
    cbn [String.length Nat.eqb string_forallb string_map].
    rewrite Hr1, Hr2, Hg1, Hg2, Hb1, Hb2, Lr1, Lr2, Lg1, Lg2, Lb1, Lb2.
    cbn [andb]. apply String.eqb_refl.
Qed.

Lemma hex_to_rgb_rgb_to_hex_witness :
  hex_to_rgb (rgb_to_hex (18, 52, 86)) = Return (18, 52, 86)
  /\ canonical (rgb_to_hex (18, 52, 86)) = true.
Proof. apply hex_to_rgb_rgb_to_hex; lia. Defined.

Lemma slice_chars_complete (c : ascii) : slice_char c = true -> In c slice_chars.
Proof. intros H. apply filter_In. split; [apply all_ascii_complete | exact H]. Qed.

(** What [int(_, 16)] returns on a string of two characters at most. *)
Lemma int_short_range (t : string) (v : Z) :
  (String.length t <= 2)%nat -> Py.int t 16 = Return v -> -15 <= v <= 255.
Proof.
  intros L E. pose proof (agrees_short t L) as A. unfold agrees in A. rewrite E in A.
  assert (G : in_channel_range (Py.int t 16) = true).
  { destruct t as [|a [|b [|c t]]]; simpl in A, L; try discriminate A; try lia.
    - assert (G : forallb (fun a => in_channel_range (Py.int (String a "") 16)) slice_chars = true)
        by (vm_compute; reflexivity).
      rewrite forallb_forall in G. apply G, slice_chars_complete.
      unfold slice_char. now rewrite A.
    - assert (G : forallb (fun a => forallb (fun b =>
                     in_channel_range (Py.int (String a (String b "")) 16)) slice_chars)
                    slice_chars = true)
        by (vm_compute; reflexivity).
      rewrite forallb_forall in G.
      assert (Ia : slice_char a = true /\ slice_char b = true).
      { unfold slice_char.
        destruct (is_hex_digit a), (is_hex_digit b), (Py.is_space a), (Py.is_space b),
          (is_sign a); simpl in A; try discriminate A; simpl; auto. }
      destruct Ia as [Ia Ib].
      specialize (G a (slice_chars_complete a Ia)). rewrite forallb_forall in G.
      apply G, slice_chars_complete, Ib. }
  rewrite E in G. simpl in G. lia.
Qed.

Lemma hex_to_rgb_range (s : string) (r g b : Z) :
  hex_to_rgb s = Return (r, g, b) ->
  -15 <= r <= 255 /\ -15 <= g <= 255 /\ -15 <= b <= 255.
Proof.
  unfold hex_to_rgb. intros H.
  destruct (Py.int (Py.slice 0 2 (Py.lstrip "#" s)) 16) as [r'|] eqn:Er; [|discriminate H].
  destruct (Py.int (Py.slice 2 2 (Py.lstrip "#" s)) 16) as [g'|] eqn:Eg; [|discriminate H].
  destruct (Py.int (Py.slice 4 2 (Py.lstrip "#" s)) 16) as [b'|] eqn:Eb; [|discriminate H].
  cbn [bind] in H. injection H as <- <- <-.
  repeat split;
    first [ apply (int_short_range _ _ (length_slice 0 2 _) Er)
          | apply (int_short_range _ _ (length_slice 2 2 _) Eg)
          | apply (int_short_range _ _ (length_slice 4 2 _) Eb) ].
Qed.

(** X2. Whatever string [hex_to_rgb] accepts, each channel it returns lies
    between -15 and 255: a slice holds two digits at most, or a sign and
    a digit. *)
Theorem hex_to_rgb_channels (s : string) (r g b : Z) :
  hex_to_rgb s = Return (r, g, b) ->
  -15 <= r <= 255 /\ -15 <= g <= 255 /\ -15 <= b <= 255.
Proof. apply hex_to_rgb_range. Qed.

Lemma hex_to_rgb_channels_witness :
  -15 <= -15 <= 255 /\ -15 <= 255 <= 255 /\ -15 <= 10 <= 255.
Proof. apply (hex_to_rgb_channels "#-fff0a"). reflexivity. Defined.

Lemma darken_1000 (c : Z) : -15 <= c <= 255 -> darken 1000 c = Return 0.
Proof.
  intros H.
  assert (G : forallb (fun c => match darken 1000 c with
                                | Return v => v =? 0
                                | Raise _ => false
                                end) channels = true)
    by (vm_compute; reflexivity).
  rewrite forallb_forall in G. specialize (G c).
  assert (I : In c channels).
  { unfold channels. apply in_map_iff. exists (Z.to_nat (c + 15)). split; [lia|].
    apply in_seq. lia. }
  specialize (G I). destruct (darken 1000 c) as [v|e]; [|discriminate G].
  apply Z.eqb_eq in G. now subst.
Qed.

(** X3. [modifyColor] with factor 1000 returns [#000000] for every string
    that [hex_to_rgb] accepts. *)
Theorem modifyColor_1000 (s : string) (rgb : Z * Z * Z) :
  hex_to_rgb s = Return rgb -> modifyColor s 1000 = Return "#000000".
Proof.
  destruct rgb as [[r g] b]. intros H.
  destruct (hex_to_rgb_range s r g b H) as (Hr & Hg & Hb).
  unfold modifyColor. rewrite H. cbn [bind].
  now rewrite (darken_1000 r Hr), (darken_1000 g Hg), (darken_1000 b Hb).
Qed.

Lemma modifyColor_1000_witness : modifyColor "#C0FFEE" 1000 = Return "#000000".
Proof. apply (modifyColor_1000 "#C0FFEE" (192, 255, 238)). reflexivity. Defined.

(** X4. [hex_to_rgb] does not look beyond the sixth digit: a valid color
    followed by any text decodes as the color does. *)
Theorem hex_to_rgb_ignores_tail (s tail : string) :
  spec_valid_color s = true ->
  hex_to_rgb (s ++ tail)%string = hex_to_rgb s.
Proof.
  intros H.
  destruct (spec_valid_color_shape s H)
    as (a & b & c & d & e & f & E & L & Ha & _).
  assert (T : Py.lstrip "#" (s ++ tail)%string = (spec_digits s ++ tail)%string).
  { destruct (spec_digits_cases s) as [Hs | Hs].
    - rewrite Hs at 1. rewrite E.
      change (Py.lstrip "#" (String "#" (String a (String b (String c (String d (String e (String f ""))))))
                             ++ tail)%string)
        with (Py.lstrip "#" (String a (String b (String c (String d (String e (String f "")))))
                             ++ tail)%string).
      change (Py.lstrip "#" (String a (String b (String c (String d (String e (String f "")))))
                             ++ tail)%string)
        with (Py.lstrip "#" (String a (String b (String c (String d (String e (String f tail))))))).
      now rewrite (lstrip_hex_digit a _ Ha).
    - rewrite Hs in *. rewrite E.
      change (Py.lstrip "#" (String a (String b (String c (String d (String e (String f "")))))
                             ++ tail)%string)
        with (Py.lstrip "#" (String a (String b (String c (String d (String e (String f tail))))))).
      now rewrite (lstrip_hex_digit a _ Ha). }
  unfold hex_to_rgb. rewrite T, L, E.
  change (String a (String b (String c (String d (String e (String f ""))))) ++ tail)%string
    with (String a (String b (String c (String d (String e (String f tail)))))).
  destruct tail; reflexivity.
Qed.

Lemma hex_to_rgb_ignores_tail_witness :
  hex_to_rgb ("#c0ffee" ++ "; }")%string = hex_to_rgb "#c0ffee".
Proof. apply hex_to_rgb_ignores_tail. reflexivity. Defined.

(** ** More on the placeholder resolver *)

Lemma literal_app (lit s : string) : Re.literal lit (lit ++ s)%string = Some s.
Proof.
  induction lit as [|a lit IH]; simpl; [reflexivity|]. now rewrite Ascii.eqb_refl.
Qed.

Lemma span_app (p : ascii -> bool) (k rest : string) :
  string_forallb p k = true ->
  match rest with EmptyString => true | String c _ => negb (p c) end = true ->
  Re.span p (k ++ rest)%string = (k, rest).
Proof.
  intros Hk Hr. induction k as [|a k IH]; simpl.
  - destruct rest as [|c rest]; [reflexivity|]. simpl.
    apply negb_true_iff in Hr. now rewrite Hr.
  - simpl in Hk. apply andb_prop in Hk as [Ha Hk]. now rewrite Ha, (IH Hk).
Qed.

Lemma is_identifier_inv (k : string) :
  is_identifier k = true ->
  exists a k', k = String a k' /\ string_forallb Py.is_word k = true.
Proof.
  unfold is_identifier. intros H. apply andb_prop in H as [N W].
  destruct k as [|a k']; [discriminate N|]. eauto.
Qed.

Lemma is_number_inv (ds : string) :
  is_number ds = true ->
  exists d ds', ds = String d ds' /\ string_forallb Py.is_decimal ds = true.
Proof.
  unfold is_number. intros H. apply andb_prop in H as [N W].
  destruct ds as [|d ds']; [discriminate N|]. eauto.
Qed.

(** The match on a placeholder without a modifier. *)
Lemma match_here_plain (k rest : string) :
  is_identifier k = true -> ends_placeholder rest = true ->
  Re.match_here ("theme." ++ k ++ rest)%string = Some (Re.mkMatch k None rest).
Proof.
  intros Hk Hr. destruct (is_identifier_inv k Hk) as (a & k' & -> & W).
  unfold Re.match_here. rewrite literal_app.
  rewrite (span_app Py.is_word (String a k') rest W).
  2:{ destruct rest as [|c rest]; [reflexivity|]. simpl in Hr.
      now apply andb_prop in Hr as [Hr _]. }
  destruct rest as [|c rest]; [reflexivity|].
  simpl in Hr. apply andb_prop in Hr as [_ Hr]. apply negb_true_iff in Hr.
  destruct c as [[] [] [] [] [] [] [] []]; try reflexivity; discriminate Hr.
Qed.

(** The match on a placeholder with a modifier. *)
Lemma match_here_modifier (k ds rest : string) :
  is_identifier k = true -> is_number ds = true ->
  Re.match_here ("theme." ++ k ++ "[" ++ ds ++ "]" ++ rest)%string
  = Some (Re.mkMatch k (Some ("[" ++ ds ++ "]")%string) rest).
Proof.
  intros Hk Hd. destruct (is_identifier_inv k Hk) as (a & k' & -> & W).
  destruct (is_number_inv ds Hd) as (d & ds' & -> & D).
  unfold Re.match_here. rewrite literal_app.
  rewrite (span_app Py.is_word (String a k') _ W) by reflexivity.
  change ("[" ++ String d ds' ++ "]" ++ rest)%string
    with (String "[" (String d ds' ++ String "]" rest)%string).
  cbv iota beta.
  rewrite (span_app Py.is_decimal (String d ds') (String "]" rest) D) by reflexivity.
  reflexivity.
Qed.

(** X5. A style sheet in which the pattern does not occur resolves to
    itself, whatever the registry: no theme needs to be active. *)
Theorem replacePlaceholders_no_placeholder (p : ThemeProvider) (sheet : string) :
  Re.search sheet = false -> _replacePlaceholders p sheet = Return sheet.
Proof. intros H. now apply sub_no_match. Qed.

Lemma replacePlaceholders_no_placeholder_witness :
  _replacePlaceholders new_provider "QPushButton { color: red; }"
  = Return "QPushButton { color: red; }".
Proof. apply replacePlaceholders_no_placeholder. reflexivity. Defined.

Lemma resolve_plain (p : ThemeProvider) (k rest : string) :
  is_identifier k = true -> ends_placeholder rest = true ->
  _replacePlaceholders p ("theme." ++ k ++ rest)%string
  = (let! r := getAttr p k None in
     let! t := _replacePlaceholders p rest in
     Return (r ++ t)%string).
Proof.
  intros Hk Hr. unfold _replacePlaceholders. rewrite sub_step.
  now rewrite (match_here_plain k rest Hk Hr).
Qed.

Lemma resolve_modifier (p : ThemeProvider) (k ds rest : string) :
  is_identifier k = true -> is_number ds = true ->
  _replacePlaceholders p ("theme." ++ k ++ "[" ++ ds ++ "]" ++ rest)%string
  = (let! n := Py.int ds 10 in
     let! r := getAttr p k (Some n) in
     let! t := _replacePlaceholders p rest in
     Return (r ++ t)%string).
Proof.
  intros Hk Hd. destruct (is_number_inv ds Hd) as (d & ds' & E & D).
  unfold _replacePlaceholders. rewrite sub_step.
  rewrite (match_here_modifier k ds rest Hk Hd).
  unfold replacer at 1. cbn [Re.group1 Re.group2 Re.after].
  rewrite (remove_brackets ds D).
  destruct (Py.int ds 10) as [n|e]; reflexivity.
Qed.

(** X6. A placeholder [theme.<k>] followed by a text that starts with
    neither a word character nor a bracket resolves to [getAttr(k)], and
    the text after it is resolved in its turn. *)
Theorem replacePlaceholders_plain (p : ThemeProvider) (k rest : string) :
  is_identifier k = true -> ends_placeholder rest = true ->
  _replacePlaceholders p ("theme." ++ k ++ rest)%string
  = (let! r := getAttr p k None in
     let! t := _replacePlaceholders p rest in
     Return (r ++ t)%string).
Proof. apply resolve_plain. Qed.

Lemma replacePlaceholders_plain_witness :
  _replacePlaceholders white_provider ("theme." ++ "bg" ++ "; theme.fg")%string
  = Return "#ffffff; #000000".
Proof.
  rewrite (replacePlaceholders_plain white_provider "bg" "; theme.fg"); reflexivity.
Defined.

(** X7. A placeholder [theme.<k>[<ds>]] resolves to [getAttr(k, int(ds))],
    whatever follows it, and the text after it is resolved in its turn.
    [int(ds)] returns where [ds] has no more digits than [int] reads, 4300,
    and raises [ValueError] where it has more: the placeholder then
    resolves to nothing, whatever the registry. *)
Theorem replacePlaceholders_modifier (p : ThemeProvider) (k ds rest : string) :
  is_identifier k = true -> is_number ds = true ->
  _replacePlaceholders p ("theme." ++ k ++ "[" ++ ds ++ "]" ++ rest)%string
  = (let! n := Py.int ds 10 in
     let! r := getAttr p k (Some n) in
     let! t := _replacePlaceholders p rest in
     Return (r ++ t)%string)
  /\ exists n,
       Py.int ds 10
       = if Py.max_str_digits <? Z.of_nat (String.length ds)
         then Raise ValueError else Return n.
Proof.
  intros Hk Hd. split; [now apply resolve_modifier | now apply int_decimals].
Qed.

Lemma replacePlaceholders_modifier_witness :
  _replacePlaceholders white_provider ("theme." ++ "bg" ++ "[" ++ "250" ++ "]" ++ "px")%string
  = (let! n := Py.int "250" 10 in
     let! r := getAttr white_provider "bg" (Some n) in
     let! t := _replacePlaceholders white_provider "px" in
     Return (r ++ t)%string)
  /\ exists n,
       Py.int "250" 10
       = if Py.max_str_digits <? Z.of_nat (String.length "250")
         then Raise ValueError else Return n.
Proof. apply (replacePlaceholders_modifier white_provider "bg" "250" "px"); reflexivity. Defined.

(** A modifier of 4301 digits: the placeholder does not resolve, under a
    theme either. *)
Lemma replacePlaceholders_long_modifier :
  _replacePlaceholders white_provider ("theme.bg[" ++ repeat_char "9" 4301 ++ "]")%string
  = Raise ValueError.
Proof. vm_compute. reflexivity. Qed.

(** X8. The modifier [[0]] changes nothing: [theme.<k>[0]] resolves to what
    [theme.<k>] resolves to, the attribute as it is stored, not darkened
    and not rewritten in normal form. *)
Theorem replacePlaceholders_modifier_0 (p : ThemeProvider) (k rest : string) :
  is_identifier k = true -> ends_placeholder rest = true ->
  _replacePlaceholders p ("theme." ++ k ++ "[" ++ "0" ++ "]" ++ rest)%string
  = _replacePlaceholders p ("theme." ++ k ++ rest)%string.
Proof.
  intros Hk Hr. rewrite (resolve_plain p k rest Hk Hr).
  rewrite (resolve_modifier p k "0" rest Hk eq_refl).
  change (Py.int "0" 10) with (Return (A := Z) 0). cbn [bind].
  unfold getAttr. destruct (current_theme p); reflexivity.
Qed.

Lemma replacePlaceholders_modifier_0_witness :
  _replacePlaceholders
    {| _observers := []; base_theme := absent; themes := [];
       current_theme := Some (mkTheme "shout" {[ "bg" := "#FFFFFF" ]}) |}
    ("theme." ++ "bg" ++ "[" ++ "0" ++ "]" ++ ";")%string
  = Return "#FFFFFF;".
Proof.
  rewrite replacePlaceholders_modifier_0; reflexivity.
Defined.

(** ** More on the registry *)

Lemma dict_get_set_eq {V : Type} (k : string) (v : V) (d : list (string * V)) :
  dict_get k (dict_set k v d) = Some v.
Proof.
  induction d as [|[k' v'] d IH]; simpl.
  - now rewrite String.eqb_refl.
  - destruct (String.eqb k' k) eqn:E; simpl; now rewrite E.
Qed.

Lemma dict_get_set_ne {V : Type} (k k' : string) (v : V) (d : list (string * V)) :
  k' <> k -> dict_get k' (dict_set k v d) = dict_get k' d.
Proof.
  intros N. induction d as [|[k0 v0] d IH]; simpl.
  - destruct (String.eqb k k') eqn:E; [|reflexivity].
    apply String.eqb_eq in E. congruence.
  - destruct (String.eqb k0 k) eqn:E; simpl.
    + apply String.eqb_eq in E. subst k0.
      destruct (String.eqb k k') eqn:E'; [|reflexivity].
      apply String.eqb_eq in E'. congruence.
    + now rewrite IH.
Qed.

Lemma dict_get_None {V : Type} (k : string) (d : list (string * V)) :
  dict_get k d = None -> ~ In k (keys d).
Proof.
  induction d as [|[k' v'] d IH]; simpl; [tauto|].
  destruct (String.eqb k' k) eqn:E; [discriminate|].
  intros H [->|I]; [|now apply IH]. now rewrite String.eqb_refl in E.
Qed.

Lemma dict_get_keys {V : Type} (k : string) (d : list (string * V)) :
  In k (keys d) -> exists v, dict_get k d = Some v.
Proof.
  intros I. destruct (dict_get k d) as [v|] eqn:E; [eauto|].
  now destruct (dict_get_None k d E).
Qed.

(** An assignment to a key of the dict leaves the keys as they are; one
    to a new key puts it last. *)
Lemma keys_dict_set_cases {V : Type} (k : string) (v : V) (d : list (string * V)) :
  keys (dict_set k v d)
  = match dict_get k d with
    | Some _ => keys d
    | None => keys d ++ [k]
    end.
Proof.
  induction d as [|[k' v'] d IH]; simpl; [reflexivity|].
  destruct (String.eqb k' k) eqn:E; simpl; [reflexivity|].
  rewrite IH. now destruct (dict_get k d).
Qed.

Lemma NoDup_keys_dict_set {V : Type} (k : string) (v : V) (d : list (string * V)) :
  NoDup (keys d) -> NoDup (keys (dict_set k v d)).
Proof.
  intros N. rewrite keys_dict_set_cases.
  destruct (dict_get k d) eqn:E; [exact N|].
  apply NoDup_app. split; [exact N|]. split; [|apply NoDup_singleton].
  intros x Hx Hk. apply list_elem_of_In in Hx, Hk. destruct Hk as [<-|[]].
  now apply (dict_get_None k d E).
Qed.

(** X9. With a base theme assigned, [addTheme] returns; the theme it
    stores under the name holds the attributes of the base overlaid by the
    given ones; the themes under the other names are those they were; the
    name keeps its place among the keys when it was one of them and comes
    last when it was not; and nothing else has changed. *)
Theorem addTheme_stores
    (name : string) (obj : gmap string string) (b : option Theme) (w : World) :
  base_theme (provider w) = assigned b ->
  let w' := fst (addTheme name obj w) in
  let stored :=
    mkTheme name
      match b with
      | Some base => merged (theme_obj base) obj
      | None => obj
      end in
  snd (addTheme name obj w) = Return tt
  /\ dict_get name (themes (provider w')) = Some stored
  /\ (forall n, n <> name ->
        dict_get n (themes (provider w')) = dict_get n (themes (provider w)))
  /\ keys (themes (provider w'))
     = match dict_get name (themes (provider w)) with
       | Some _ => keys (themes (provider w))
       | None => keys (themes (provider w)) ++ [name]
       end
  /\ current_theme (provider w') = current_theme (provider w)
  /\ _observers (provider w') = _observers (provider w)
  /\ base_theme (provider w') = base_theme (provider w)
  /\ env w' = env w.
Proof.
  intros H. unfold addTheme, bindM, get_provider. rewrite H.
  cbn [fst snd put_provider provider themes current_theme _observers base_theme env].
  assert (E : match b with
              | Some {| name := _; theme_obj := base_obj |} => merged base_obj obj
              | None => obj
              end
              = match b with
                | Some base => merged (theme_obj base) obj
                | None => obj
                end) by now destruct b as [[]|].
  rewrite E. repeat split.
  - apply dict_get_set_eq.
  - intros n N. now apply dict_get_set_ne.
  - apply keys_dict_set_cases.
Qed.

Lemma addTheme_stores_witness :
  dict_get "dark" (themes (provider (fst (addTheme "dark" dark_obj (fst (addBase ∅ initial_world))))))
  = Some (mkTheme "dark" (merged ∅ dark_obj)).
Proof.
  exact (proj1 (proj2 (addTheme_stores "dark" dark_obj (Some (mkTheme "_base_" ∅))
                         (fst (addBase ∅ initial_world)) eq_refl))).
Defined.

Lemma index_In (x : string) (l : list string) :
  In x l -> exists i, index x l = Some i.
Proof.
  induction l as [|y l IH]; simpl; [tauto|].
  destruct (String.eqb y x) eqn:E; [eauto|].
  intros [->|I]; [now rewrite String.eqb_refl in E|].
  destruct (IH I) as [i ->]. simpl. eauto.
Qed.

Lemma index_nth (x : string) (l : list string) (i : nat) :
  index x l = Some i -> nth_error l i = Some x /\ (i < List.length l)%nat.
Proof.
  revert i. induction l as [|y l IH]; simpl; intros i; [discriminate|].
  destruct (String.eqb y x) eqn:E.
  - intros [= <-]. apply String.eqb_eq in E. subst. split; [reflexivity | lia].
  - destruct (index x l) as [j|]; [|discriminate]. intros [= <-].
    destruct (IH j eq_refl). split; [assumption | lia].
Qed.

Lemma nth_index (x : string) (l : list string) (i : nat) :
  NoDup l -> nth_error l i = Some x -> index x l = Some i.
Proof.
  intros N. revert i. induction l as [|y l IH]; intros [|i]; simpl; try discriminate.
  - intros [= ->]. now rewrite String.eqb_refl.
  - intros H. apply NoDup_cons in N as [Ny N].
    destruct (String.eqb y x) eqn:E.
    + apply String.eqb_eq in E. subst y. apply nth_error_In in H.
      apply list_elem_of_In in H. contradiction.
    + now rewrite (IH N i H).
Qed.

Lemma nth_error_update {A : Type} (l : list A) (i : nat) (x y : A) :
  nth_error l i = Some x -> nth_error (update i y l) i = Some y.
Proof.
  revert i. induction l as [|z l IH]; intros [|i]; simpl; try discriminate; auto.
Qed.

(** *** The methods of a binding, one equation each *)

Lemma get_object_none (self : nat) (w : World) :
  nth_error (objects (env w)) self = None -> get_object self w = (w, Raise TypeError).
Proof. intros H. unfold get_object, bindM, get_env. now rewrite H. Qed.

Lemma getThemeStyle_eq (self : nat) (o : Themeable) (w : World) :
  nth_error (objects (env w)) self = Some o ->
  getThemeStyle self w
  = (w, match style_sheet o with
        | None => Raise (Exception "No StyleSheet set")
        | Some sheet => _replacePlaceholders (provider w) sheet
        end).
Proof.
  intros H. unfold getThemeStyle.
  rewrite (bindM_Return _ _ _ _ _ (get_object_eq _ _ _ H)).
  now destruct (style_sheet o).
Qed.

Lemma onThemeChange_eq (self : nat) (o : Themeable) (w : World) :
  nth_error (objects (env w)) self = Some o ->
  onThemeChange self w
  = match widget o with
    | None => (w, Raise AttributeError)
    | Some wid =>
        match style_sheet o with
        | None => (w, Raise (Exception "No StyleSheet set"))
        | Some sheet =>
            match _replacePlaceholders (provider w) sheet with
            | Return style => (restyled w wid style, Return tt)
            | Raise e => (w, Raise e)
            end
        end
    end.
Proof.
  intros H. unfold onThemeChange.
  rewrite (bindM_Return _ _ _ _ _ (get_object_eq _ _ _ H)).
  destruct (widget o) as [wid|]; [|reflexivity].
  unfold bindM at 1. rewrite (getThemeStyle_eq self o w H).
  destruct (style_sheet o) as [sheet|]; [|reflexivity].
  now destruct (_replacePlaceholders (provider w) sheet).
Qed.

Lemma onThemeChange_cases (self : nat) (w : World) :
  match onThemeChange self w with
  | (w', Return _) =>
      exists o sheet wid style,
        nth_error (objects (env w)) self = Some o
        /\ style_sheet o = Some sheet /\ widget o = Some wid
        /\ _replacePlaceholders (provider w) sheet = Return style
        /\ w' = restyled w wid style
  | (w', Raise _) => w' = w
  end.
Proof.
  destruct (nth_error (objects (env w)) self) as [o|] eqn:E.
  - rewrite (onThemeChange_eq self o w E).
    destruct (widget o) as [wid|] eqn:W; [|reflexivity].
    destruct (style_sheet o) as [sheet|] eqn:S; [|reflexivity].
    destruct (_replacePlaceholders (provider w) sheet) as [style|e] eqn:R; [|reflexivity].
    exists o, sheet, wid, style. now repeat split.
  - unfold onThemeChange. now rewrite (bindM_Raise _ _ _ _ _ (get_object_none _ _ E)).
Qed.

(** X10. [onThemeChange] is all or nothing: when it returns, the widget of
    the binding was given one style sheet, the binding's own resolved under
    the registry as it is, and nothing else has changed; when it raises,
    nothing has changed at all. *)
Theorem onThemeChange_atomic (self : nat) (w : World) :
  match onThemeChange self w with
  | (w', Return _) =>
      exists o sheet wid style,
        nth_error (objects (env w)) self = Some o
        /\ style_sheet o = Some sheet /\ widget o = Some wid
        /\ _replacePlaceholders (provider w) sheet = Return style
        /\ w' = restyled w wid style
  | (w', Raise _) => w' = w
  end.
Proof. apply onThemeChange_cases. Qed.

(** The equation of [__init__]: the binding is allocated and registered,
    its attributes are assigned, and then it is rendered. *)
Lemma Themeable_init_eq (wd : option nat) (sh : option string) (w : World) :
  let self := List.length (objects (env w)) in
  let w1 := allocated (observed w (bound_onThemeChange self)) (mkThemeable sh wd) in
  Themeable__init__ wd sh w
  = match onThemeChange self w1 with
    | (w2, Return _) => (w2, Return self)
    | (w2, Raise e) => (w2, Raise e)
    end.
Proof.
  intros self w1. unfold Themeable__init__.
  rewrite (bindM_Return _ _ w (allocated w (mkThemeable None None)) self) by reflexivity.
  rewrite (bindM_Return _ _ _
             (allocated (observed w (bound_onThemeChange self)) (mkThemeable None None)) tt)
    by reflexivity.
  rewrite (bindM_Return _ _ _
             (allocated (observed w (bound_onThemeChange self)) (mkThemeable sh None)) tt).
  2:{ rewrite (setThemeStyle_eq self sh (mkThemeable None None)) by apply nth_error_snoc.
      unfold allocated, observed, self. cbn [provider env calls objects applied widget].
      now rewrite update_snoc. }
  rewrite (bindM_Return _ _ _ w1 tt).
  2:{ rewrite (setWidget_eq self wd (mkThemeable sh None)) by apply nth_error_snoc.
      unfold w1, allocated, observed, self. cbn [provider env calls objects applied style_sheet].
      now rewrite update_snoc. }
  unfold bindM, ret. now destruct (onThemeChange self w1) as [w2 [[]|e]].
Qed.

(** The resolver reads the active theme, and nothing else of the registry. *)
Lemma sub_loop_ext (repl repl' : Re.Match -> outcome string) :
  (forall m, repl m = repl' m) ->
  forall fuel s, Re.sub_loop fuel repl s = Re.sub_loop fuel repl' s.
Proof.
  intros H. induction fuel as [|fuel IH]; intros s; [reflexivity|].
  cbn [Re.sub_loop]. destruct (Re.match_here s) as [m|].
  - now rewrite H, IH.
  - destruct s as [|c s]; [reflexivity|]. now rewrite IH.
Qed.

Lemma replacePlaceholders_ext (p p' : ThemeProvider) (sheet : string) :
  current_theme p = current_theme p' ->
  _replacePlaceholders p sheet = _replacePlaceholders p' sheet.
Proof.
  intros H. unfold _replacePlaceholders, Re.sub. apply sub_loop_ext.
  intros m. unfold replacer, getAttr. now rewrite H.
Qed.

(** X11. [Themeable.__init__] with a widget and a style sheet that
    resolves returns the new binding: it is registered last among the
    observers, holds the widget and the style sheet, and the widget was
    given the resolved style sheet, once. *)
Theorem Themeable_init_applies (wid : nat) (sheet style : string) (w : World) :
  _replacePlaceholders (provider w) sheet = Return style ->
  let self := List.length (objects (env w)) in
  Themeable__init__ (Some wid) (Some sheet) w
  = (restyled
       (allocated (observed w (bound_onThemeChange self))
          (mkThemeable (Some sheet) (Some wid)))
       wid style,
     Return self).
Proof.
  intros R self. rewrite Themeable_init_eq. fold self.
  rewrite (onThemeChange_eq self (mkThemeable (Some sheet) (Some wid)))
    by apply nth_error_snoc.
  cbn [widget style_sheet].
  rewrite (replacePlaceholders_ext _ (provider w) sheet) by reflexivity.
  now rewrite R.
Qed.

Lemma Themeable_init_applies_witness :
  Themeable__init__ (Some 3%nat) (Some "color: theme.bg") dark_world
  = (restyled
       (allocated (observed dark_world (bound_onThemeChange 0))
          (mkThemeable (Some "color: theme.bg") (Some 3%nat)))
       3 "color: #222222",
     Return 0%nat).
Proof.
  apply (Themeable_init_applies 3 "color: theme.bg" "color: #222222" dark_world).
  vm_compute. reflexivity.
Defined.

(** X12. [Themeable.__init__] without a widget raises [AttributeError],
    and with a widget but no style sheet [Exception("No StyleSheet set")],
    whatever the registry; either way the binding stays registered as an
    observer, and no widget was touched. *)
Theorem Themeable_init_incomplete (wid : nat) (sh : option string) (w : World) :
  let self := List.length (objects (env w)) in
  Themeable__init__ None sh w
  = (allocated (observed w (bound_onThemeChange self)) (mkThemeable sh None),
     Raise AttributeError)
  /\ Themeable__init__ (Some wid) None w
     = (allocated (observed w (bound_onThemeChange self)) (mkThemeable None (Some wid)),
        Raise (Exception "No StyleSheet set")).
Proof.
  intros self. split; rewrite Themeable_init_eq; fold self.
  - now rewrite (onThemeChange_eq self (mkThemeable sh None)) by apply nth_error_snoc.
  - now rewrite (onThemeChange_eq self (mkThemeable None (Some wid))) by apply nth_error_snoc.
Qed.

(** X13. After [setThemeStyle] on a binding, [getThemeStyle] resolves the
    new style sheet; [setThemeStyle] itself gives no widget a style sheet
    and leaves the registry and the widget of the binding as they are. *)
Theorem setThemeStyle_getThemeStyle (self : nat) (sheet : string) (o : Themeable) (w : World) :
  nth_error (objects (env w)) self = Some o ->
  let w1 := fst (setThemeStyle self (Some sheet) w) in
  getThemeStyle self w1 = (w1, _replacePlaceholders (provider w) sheet)
  /\ nth_error (objects (env w1)) self = Some (mkThemeable (Some sheet) (widget o))
  /\ applied (env w1) = applied (env w)
  /\ provider w1 = provider w.
Proof.
  intros H w1. unfold w1. rewrite (setThemeStyle_eq self (Some sheet) o w H).
  cbn [fst]. 
  assert (N : nth_error (update self (mkThemeable (Some sheet) (widget o)) (objects (env w))) self
              = Some (mkThemeable (Some sheet) (widget o)))
    by now apply (nth_error_update _ _ o).
  repeat split; auto.
  now rewrite (getThemeStyle_eq self (mkThemeable (Some sheet) (widget o))).
Qed.

(** X14. After [setWidget] on a binding, [onThemeChange] styles the new
    widget; [setWidget] itself gives no widget a style sheet. *)
Theorem setWidget_onThemeChange
    (self wid : nat) (sheet style : string) (o : Themeable) (w : World) :
  nth_error (objects (env w)) self = Some o ->
  style_sheet o = Some sheet ->
  _replacePlaceholders (provider w) sheet = Return style ->
  let w1 := fst (setWidget self (Some wid) w) in
  applied (env w1) = applied (env w)
  /\ onThemeChange self w1 = (restyled w1 wid style, Return tt).
Proof.
  intros H S R w1. unfold w1. rewrite (setWidget_eq self (Some wid) o w H).
  cbn [fst]. split; [reflexivity|].
  rewrite (onThemeChange_eq self (mkThemeable (style_sheet o) (Some wid))).
  2:{ now apply (nth_error_update _ _ o). }
  cbn [widget style_sheet provider]. now rewrite S, R.
Qed.

(** ** What the resolver raises *)

Lemma int_raises (s : string) (base : Z) (e : exn) :
  Py.int s base = Raise e -> e = ValueError.
Proof.
  unfold Py.int. destruct (Py.strip_sign (Py.lstrip_space s)) as [neg s1].
  set (s2 := if base =? 16 then Py.strip_prefix16 s1 else s1).
  assert (G : match Py.scan_digits base false false 0 s2 with
              | Some (seen, v, rest) =>
                  if negb seen then Raise ValueError
                  else if negb (Py.binary_base base)
                          && (Py.max_str_digits <? Py.count_digits base s2)
                  then Raise ValueError
                  else match Py.lstrip_space rest with
                       | EmptyString => Return (if neg then - v else v)
                       | String _ _ => Raise ValueError
                       end
              | None => Raise ValueError
              end = Raise e -> e = ValueError).
  { destruct (Py.scan_digits base false false 0 s2) as [[[seen v] rest]|]; [|congruence].
    destruct (negb seen); [congruence|].
    destruct (negb (Py.binary_base base) && (Py.max_str_digits <? Py.count_digits base s2));
      [congruence|].
    destruct (Py.lstrip_space rest); congruence. }
  destruct s2 as [|c s3]; [exact G|].
  destruct (Ascii.eqb c "_") eqn:E.
  - apply Ascii.eqb_eq in E. subst c. congruence.
  - intros H. apply G. rewrite <- H.
    destruct c as [[] [] [] [] [] [] [] []]; try reflexivity; discriminate E.
Qed.

Lemma hex_to_rgb_raises (s : string) (e : exn) :
  hex_to_rgb s = Raise e -> e = ValueError.
Proof.
  unfold hex_to_rgb. intros H.
  destruct (Py.int (Py.slice 0 2 (Py.lstrip "#" s)) 16) eqn:E0;
    [|cbn [bind] in H; injection H as <-; now apply int_raises in E0].
  destruct (Py.int (Py.slice 2 2 (Py.lstrip "#" s)) 16) eqn:E2;
    [|cbn [bind] in H; injection H as <-; now apply int_raises in E2].
  destruct (Py.int (Py.slice 4 2 (Py.lstrip "#" s)) 16) eqn:E4;
    [discriminate H|cbn [bind] in H; injection H as <-; now apply int_raises in E4].
Qed.

Lemma darken_raises (factor c : Z) (e : exn) :
  darken factor c = Raise e -> e = OverflowError \/ e = ValueError.
Proof.
  unfold darken.
  assert (Q : forall q, Py.int_truediv factor 1000 = Raise q -> q = OverflowError).
  { unfold Py.int_truediv. intros q.
    destruct factor as [|m|m]; try discriminate;
      match goal with
      | |- context [SFdiv ?a ?b ?x ?y] => destruct (SFdiv a b x y)
      end; congruence. }
  assert (F : forall n q, Py.float_of_int n = Raise q -> q = OverflowError).
  { unfold Py.float_of_int. intros n q.
    destruct (binary_normalize Py.prec Py.emax n 0 false); congruence. }
  assert (I : forall x q, Py.int_of_float x = Raise q -> q = OverflowError \/ q = ValueError).
  { unfold Py.int_of_float. intros x q. destruct x; intros [= <-]; auto. }
  destruct (Py.int_truediv factor 1000) as [q|q] eqn:Eq;
    [|cbn [bind]; intros [= <-]; left; now apply Q].
  destruct (Py.float_of_int 1) as [one|x] eqn:E1;
    [|cbn [bind]; intros [= <-]; left; now apply (F 1)].
  destruct (Py.float_of_int c) as [cf|x] eqn:Ec;
    [|cbn [bind]; intros [= <-]; left; now apply (F c)].
  cbn [bind].
  destruct (Py.int_of_float (SFmul Py.prec Py.emax cf (SFsub Py.prec Py.emax one q)))
    as [i|x] eqn:Ei; [discriminate|].
  cbn [bind]. intros [= <-]. now apply (I _ _ Ei).
Qed.

Lemma modifyColor_raises (s : string) (factor : Z) (e : exn) :
  modifyColor s factor = Raise e -> e = ValueError \/ e = OverflowError.
Proof.
  unfold modifyColor. intros H.
  destruct (hex_to_rgb s) as [[[r g] b]|x] eqn:E;
    [|cbn [bind] in H; injection H as <-; left; now apply hex_to_rgb_raises in E].
  cbn [bind] in H.
  destruct (darken factor r) eqn:Er;
    [|cbn [bind] in H; injection H as <-; apply darken_raises in Er; tauto].
  destruct (darken factor g) eqn:Eg;
    [|cbn [bind] in H; injection H as <-; apply darken_raises in Eg; tauto].
  destruct (darken factor b) eqn:Eb;
    [discriminate H|cbn [bind] in H; injection H as <-; apply darken_raises in Eb; tauto].
Qed.

Lemma getAttr_raises (p : ThemeProvider) (key : string) (modifier : option Z) (e : exn) :
  getAttr p key modifier = Raise e ->
  match current_theme p with
  | None => e = Exception "No Theme set"
  | Some _ => e = ValueError \/ e = OverflowError
  end.
Proof.
  unfold getAttr. destruct (current_theme p) as [t|]; [|now intros [= <-]].
  destruct modifier as [f|]; [|discriminate].
  destruct (f =? 0); [discriminate|].
  destruct (modifyColor (default "#000000" (theme_obj t !! key)) f) as [v|x] eqn:M;
    [discriminate|].
  destruct (modifyColor_raises _ _ _ M) as [-> | ->]; intros [= <-]; auto.
Qed.

(** Under a theme the replacement raises what [int] raises on a modifier
    that is too long for it, or what the darkening raises. *)
Lemma replacer_raises (p : ThemeProvider) (t : Theme) (m : Re.Match) (e : exn) :
  current_theme p = Some t -> replacer p m = Raise e ->
  e = ValueError \/ e = OverflowError.
Proof.
  intros C. pose proof (getAttr_raises p (Re.group1 m)) as G. rewrite C in G.
  unfold replacer. destruct (Re.group2 m) as [g|]; [|apply G].
  destruct (Py.int (Py.remove "]" (Py.remove "[" g)) 10) as [n|x] eqn:E; cbn [bind].
  - apply G.
  - intros [= <-]. left. now apply int_raises in E.
Qed.

(** [re.sub] raises what the replacement raised on a match, and nothing
    else. *)
Lemma sub_raises_from (repl : Re.Match -> outcome string) (e : exn) (n : nat) :
  forall s, (String.length s <= n)%nat ->
    Re.sub repl s = Raise e ->
    exists s' m, Re.match_here s' = Some m /\ repl m = Raise e.
Proof.
  induction n as [|n IH]; intros s L; rewrite sub_step.
  - destruct s; [|simpl in L; lia]. discriminate.
  - destruct (Re.match_here s) as [m|] eqn:E.
    + pose proof (match_here_shorter s m E) as Hm.
      destruct (repl m) as [r|x] eqn:R; [|intros [= <-]; eauto].
      cbn [bind]. destruct (Re.sub repl (Re.after m)) as [t|x] eqn:T; [discriminate|].
      intros [= <-]. apply (IH (Re.after m)); [lia | exact T].
    + destruct s as [|c s]; [discriminate|]. simpl in L.
      destruct (Re.sub repl s) as [t|x] eqn:T; [discriminate|].
      intros [= <-]. apply (IH s); [lia | exact T].
Qed.

(** X15. What the resolver raises. While no theme is active it raises at
    the first placeholder of the style sheet: [Exception("No Theme set")],
    or [ValueError] where that placeholder has a modifier of more digits
    than [int] reads. While a theme is active it raises [ValueError] or
    [OverflowError] and nothing else: an attribute that the theme lacks and
    a bracket that holds no number are no errors. *)
Theorem replacePlaceholders_raises (p : ThemeProvider) (sheet : string) (e : exn) :
  _replacePlaceholders p sheet = Raise e ->
  match current_theme p with
  | None =>
      exists m,
        Re.first_match sheet = Some m
        /\ e = if long_modifier m then ValueError else Exception "No Theme set"
  | Some _ => e = ValueError \/ e = OverflowError
  end.
Proof.
  intros H. destruct (current_theme p) as [t|] eqn:C.
  - destruct (sub_raises_from (replacer p) e (String.length sheet) sheet (le_n _) H)
      as (s' & m & _ & R).
    now apply (replacer_raises p t m e).
  - destruct (Re.first_match sheet) as [m|] eqn:F.
    + exists m. split; [reflexivity|].
      rewrite (replacePlaceholders_no_theme p sheet m C F) in H. now injection H.
    + pose proof (first_match_search sheet) as S. rewrite F in S.
      unfold _replacePlaceholders in H. rewrite (sub_no_match _ _ S) in H.
      discriminate H.
Qed.

Lemma replacePlaceholders_raises_witness : ValueError = ValueError \/ ValueError = OverflowError.
Proof.
  apply (replacePlaceholders_raises red_provider "color: theme.bg[500]" ValueError).
  reflexivity.
Defined.

Lemma setThemeStyle_getThemeStyle_witness :
  getThemeStyle 0
    (fst (setThemeStyle 0 (Some "border: theme.bg[500]")
            (fst (Themeable__init__ (Some 3%nat) (Some "color: theme.bg") dark_world))))
  = (fst (setThemeStyle 0 (Some "border: theme.bg[500]")
            (fst (Themeable__init__ (Some 3%nat) (Some "color: theme.bg") dark_world))),
     Return "border: #111111").
Proof.
  exact (proj1 (setThemeStyle_getThemeStyle 0 "border: theme.bg[500]"
                  (mkThemeable (Some "color: theme.bg") (Some 3%nat))
                  (fst (Themeable__init__ (Some 3%nat) (Some "color: theme.bg") dark_world))
                  eq_refl)).
Defined.

Lemma setWidget_onThemeChange_witness :
  snd (onThemeChange 0
         (fst (setWidget 0 (Some 9%nat)
                 (fst (Themeable__init__ (Some 3%nat) (Some "color: theme.bg") dark_world)))))
  = Return tt.
Proof.
  rewrite (proj2 (setWidget_onThemeChange 0 9 "color: theme.bg" "color: #222222"
                    (mkThemeable (Some "color: theme.bg") (Some 3%nat))
                    (fst (Themeable__init__ (Some 3%nat) (Some "color: theme.bg") dark_world))
                    eq_refl eq_refl eq_refl)).
  reflexivity.
Defined.

(** ** More on notification and the cycle of themes *)

Section Coverage.

Variable foreign_call : nat -> ThemeProvider -> Env -> Env * outcome unit.

Abbreviation call := (call foreign_call).
Abbreviation invoke := (invoke foreign_call).
Abbreviation notify := (notify foreign_call).
Abbreviation setTheme := (setTheme foreign_call).
Abbreviation incrementTheme := (incrementTheme foreign_call).
Abbreviation step := (step foreign_call).
Abbreviation run := (run foreign_call).
Abbreviation reachable := (reachable foreign_call).

(** The refresh of a binding reads nothing of the record of calls. *)
Lemma onThemeChange_calls (self : nat) (p : ThemeProvider) (e : Env) (c : list Callback) :
  env (fst (onThemeChange self (mkWorld p e c)))
  = env (fst (onThemeChange self (mkWorld p e [])))
  /\ snd (onThemeChange self (mkWorld p e c))
     = snd (onThemeChange self (mkWorld p e [])).
Proof.
  destruct (nth_error (objects e) self) as [o|] eqn:E.
  - rewrite (onThemeChange_eq self o (mkWorld p e c)) by exact E.
    rewrite (onThemeChange_eq self o (mkWorld p e [])) by exact E.
    destruct (widget o) as [wid|]; [|now split].
    destruct (style_sheet o) as [sheet|]; [|now split].
    cbn [provider]. destruct (_replacePlaceholders p sheet); now split.
  - unfold onThemeChange.
    rewrite (bindM_Raise _ _ _ _ _ (get_object_none self (mkWorld p e c) E)).
    rewrite (bindM_Raise _ _ _ _ _ (get_object_none self (mkWorld p e []) E)).
    now split.
Qed.

(** What the loop does to the bindings and the widgets, and what it
    returns or raises: what the observers do, one after the other. *)
Lemma notify_effect (observers : list Callback) (w : World) :
  (env (fst (notify observers w)), snd (notify observers w))
  = observers_effect foreign_call observers (provider w) (env w).
Proof.
  revert w. induction observers as [|callback observers IH]; intros w; [reflexivity|].
  cbn [notify]. unfold bindM.
  destruct (invoke_spec foreign_call callback w) as [P _].
  destruct callback as [self|k]; cbn [observers_effect].
  - unfold invoke in *. cbn [call] in *.
    destruct (onThemeChange_calls self (provider w) (env w) (calls w ++ [bound_onThemeChange self]))
      as [E O].
    destruct (onThemeChange self
                (mkWorld (provider w) (env w) (calls w ++ [bound_onThemeChange self])))
      as [w1 o1].
    destruct (onThemeChange self (mkWorld (provider w) (env w) [])) as [w2 o2].
    cbn [fst snd] in *. subst o2. rewrite <- E, <- P.
    destruct o1 as [[]|x]; [apply IH | reflexivity].
  - unfold invoke in *. cbn [call provider env calls] in *.
    destruct (foreign_call k (provider w) (env w)) as [e1 [[]|x]]; [|reflexivity].
    rewrite IH. reflexivity.
Qed.

(** C10. A call of [incrementTheme] that returns has selected the theme
    stored under the name that follows the active theme's in the keys of
    [themes], the first following the last, and has notified every
    observer, in the order of registration, before returning: under the
    registry with that theme active each observer has run and returned,
    the [onThemeChange] of a binding or the callable of the application,
    each on the bindings and widgets as the one before it left them, and
    the bindings and widgets after the call are those that the last one
    left. It is the call of [setTheme] on that name. *)
Theorem incrementTheme_notifies (w w' : World) :
  incrementTheme w = (w', Return tt) ->
  exists (current : Theme) (i : nat) (next : string) (t : Theme),
    current_theme (provider w) = Some current
    /\ index (name current) (keys (themes (provider w))) = Some i
    /\ nth_error (keys (themes (provider w)))
         ((i + 1) mod List.length (keys (themes (provider w)))) = Some next
    /\ dict_get next (themes (provider w)) = Some t
    /\ current_theme (provider w') = Some t
    /\ observers_effect foreign_call (_observers (provider w))
         (with_current t (provider w)) (env w)
       = (env w', Return tt)
    /\ calls w' = calls w ++ _observers (provider w)
    /\ setTheme next w = (w', Return tt).
Proof.
  unfold incrementTheme, bindM, get_provider, raise. intros H.
  destruct (current_theme (provider w)) as [current|]; [|discriminate H].
  destruct (index (name current) (keys (themes (provider w)))) as [i|] eqn:I;
    [|discriminate H].
  destruct (keys (themes (provider w))) as [|k ks] eqn:K; [discriminate H|].
  destruct (nth_error (k :: ks) ((i + 1) mod List.length (k :: ks)))
    as [next|] eqn:N; [|discriminate H].
  pose proof (setTheme_provider foreign_call next w) as P.
  destruct (dict_get next (themes (provider w))) as [t|] eqn:D;
    [|rewrite P in H; discriminate H].
  exists current, i, next, t. repeat split; auto.
  - rewrite H in P. cbn [fst] in P. now rewrite P.
  - rewrite (setTheme_known foreign_call next t w D) in H.
    pose proof (notify_effect (_observers (provider w))
                  (mkWorld (with_current t (provider w)) (env w) (calls w))) as E.
    rewrite H in E. cbn [fst snd provider env] in E. now rewrite <- E.
  - rewrite (setTheme_known foreign_call next t w D) in H.
    pose proof (notify_spec foreign_call (_observers (provider w))
                  (mkWorld (with_current t (provider w)) (env w) (calls w)))
      as [_ C].
    rewrite H in C. exact C.
Qed.

(** X16. [setTheme] on a registered name makes the theme stored under it
    the active one, and then the observers run in the order of
    registration under the registry with that theme active, the
    [onThemeChange] of a binding or the callable of the application, each
    on the bindings and widgets as the one before it left them: it
    returns when all of them have returned and raises what the first of
    them that raises has raised, the later ones not being run. The
    observers are those of the model, which do not call the registry back
    while they are notified: the theme is still the active one when
    [setTheme] ends, whether it returns or raises. *)
Theorem setTheme_registered (name : string) (t : Theme) (w : World) :
  dict_get name (themes (provider w)) = Some t ->
  (env (fst (setTheme name w)), snd (setTheme name w))
  = observers_effect foreign_call (_observers (provider w))
      (with_current t (provider w)) (env w)
  /\ current_theme (provider (fst (setTheme name w))) = Some t.
Proof.
  intros H. rewrite (setTheme_known foreign_call name t w H). split.
  - apply (notify_effect (_observers (provider w))
             (mkWorld (with_current t (provider w)) (env w) (calls w))).
  - destruct (notify_spec foreign_call (_observers (provider w))
                (mkWorld (with_current t (provider w)) (env w) (calls w))) as [P _].
    now rewrite P.
Qed.

(** X17. Overlay: after [addBase], [addTheme] and [setTheme] on the name,
    whatever the state they start from, [getAttr] returns the attribute of
    the theme where the theme has the key, that of the base where only the
    base has it, and [#000000] where neither has. The observers that
    [setTheme] notifies are the [onThemeChange] of bindings, which act on
    their widgets only; one of them may raise. *)
Theorem overlay_precedence
    (base obj : gmap string string) (name key : string) (w : World) :
  forallb is_bound (_observers (provider w)) = true ->
  let w1 := fst (addBase base w) in
  let w2 := fst (addTheme name obj w1) in
  let w3 := fst (setTheme name w2) in
  snd (addTheme name obj w1) = Return tt
  /\ getAttr (provider w3) key None
     = Return match obj !! key with
              | Some v => v
              | None => match base !! key with
                        | Some v => v
                        | None => "#000000"
                        end
              end.
Proof.
  intros _ w1 w2 w3.
  assert (B : base_theme (provider w1) = assigned (Some (mkTheme "_base_" base)))
    by reflexivity.
  assert (A : addTheme name obj w1
              = (mkWorld
                   {| _observers := _observers (provider w1);
                      base_theme := base_theme (provider w1);
                      themes := dict_set name (mkTheme name (merged base obj)) (themes (provider w1));
                      current_theme := current_theme (provider w1) |}
                   (env w1) (calls w1), Return tt)).
  { unfold addTheme, bindM, get_provider. now rewrite B. }
  split; [now rewrite A|].
  assert (D : dict_get name (themes (provider w2)) = Some (mkTheme name (merged base obj))).
  { unfold w2. rewrite A. cbn [fst provider themes]. apply dict_get_set_eq. }
  pose proof (setTheme_provider foreign_call name w2) as P. rewrite D in P.
  unfold w3. unfold getAttr. rewrite P. cbn [with_current current_theme theme_obj].
  unfold merged. rewrite lookup_union.
  now destruct (obj !! key), (base !! key).
Qed.

(** *** Reachable registries *)

(** Of the registry, [__init__] changes the list of observers. *)
Lemma Themeable_init_provider (wd : option nat) (sh : option string) (w : World) :
  provider (fst (Themeable__init__ wd sh w))
  = provider (observed w (bound_onThemeChange (List.length (objects (env w))))).
Proof.
  rewrite Themeable_init_eq.
  set (self := List.length (objects (env w))).
  set (w1 := allocated (observed w (bound_onThemeChange self)) (mkThemeable sh wd)).
  destruct (frames_onThemeChange self w1) as [F _].
  destruct (onThemeChange self w1) as [w2 [[]|e]]; exact F.
Qed.

Lemma step_base (op : Op) (w : World) :
  base_theme (provider (fst (step op w))) = base_theme (provider w)
  \/ exists base_obj,
       base_theme (provider (fst (step op w))) = assigned (Some (mkTheme "_base_" base_obj)).
Proof.
  assert (S : forall n, base_theme (provider (fst (setTheme n w))) = base_theme (provider w)).
  { intros n. pose proof (setTheme_provider foreign_call n w) as P.
    destruct (dict_get n (themes (provider w))); now rewrite P. }
  destruct op as [n obj|b|n| |c|wd sh|self wd|self sh]; cbn [step].
  - left. unfold addTheme, bindM, get_provider.
    destruct (base_theme (provider w)) as [|b0] eqn:E;
      cbn [fst raise put_provider provider base_theme]; first [exact E | reflexivity].
  - right. now exists b.
  - left. apply S.
  - left. unfold incrementTheme, bindM, get_provider, raise.
    destruct (current_theme (provider w)) as [current|]; [|reflexivity].
    destruct (index (name current) (keys (themes (provider w)))); [|reflexivity].
    destruct (keys (themes (provider w))) as [|k ks]; [reflexivity|].
    destruct (nth_error (k :: ks) _) as [next|]; [|reflexivity]. apply S.
  - now left.
  - left. unfold bindM, ret.
    pose proof (Themeable_init_provider wd sh w) as P.
    destruct (Themeable__init__ wd sh w) as [w1 [a|e]]; cbn [fst] in *; now rewrite P.
  - left. now destruct (frames_setWidget self wd w) as [-> _].
  - left. now destruct (frames_setThemeStyle self sh w) as [-> _].
Qed.

Lemma step_well_formed (op : Op) (w : World) :
  well_formed (provider w) -> well_formed (provider (fst (step op w))).
Proof.
  intros (N & W & B). repeat split.
  - destruct (step_provider foreign_call op w)
      as [[-> _]|[(n & o0 & o & _ & -> & _)|(_ & _ & _ & -> & _)]]; auto.
    now apply NoDup_keys_dict_set.
  - now apply step_well_named.
  - destruct (step_base op w) as [-> | H]; auto.
Qed.

Lemma run_well_formed (ops : list Op) (w : World) :
  well_formed (provider w) -> well_formed (provider (run ops w)).
Proof.
  revert w. induction ops as [|op ops IH]; intros w H; [exact H|].
  cbn [run fold_left]. apply IH, step_well_formed, H.
Qed.

Lemma reachable_well_formed_aux (w : World) :
  reachable w -> well_formed (provider w).
Proof.
  intros [ops ->]. apply run_well_formed. repeat split.
  - apply NoDup_nil_2.
  - intros k t [].
  - now left.
Qed.

(** X18. In every reachable world the keys of [themes], which [getThemes]
    returns, are distinct; every theme is stored under its own name; and
    [base_theme] is either unassigned or a theme named [_base_], never
    [None]: the test that [addTheme] makes on it always succeeds when it
    is reached. *)
Theorem reachable_well_formed (w : World) :
  reachable w ->
  snd (getThemes w) = Return (keys (themes (provider w)))
  /\ NoDup (keys (themes (provider w)))
  /\ (forall k t, dict_get k (themes (provider w)) = Some t -> name t = k)
  /\ base_theme (provider w) <> assigned None.
Proof.
  intros R. destruct (reachable_well_formed_aux w R) as (N & W & B).
  repeat split; auto.
  - intros k t D. apply (W k t), dict_get_In, D.
  - destruct B as [-> | [b ->]]; discriminate.
Qed.

(** One step of the cycle, in a registry whose keys are distinct and whose
    themes are stored under their names. *)
Lemma incrementTheme_step (w : World) (current : Theme) (i : nat) :
  NoDup (keys (themes (provider w))) -> well_named (provider w) ->
  current_theme (provider w) = Some current ->
  index (name current) (keys (themes (provider w))) = Some i ->
  exists next t,
    nth_error (keys (themes (provider w)))
      ((i + 1) mod List.length (keys (themes (provider w)))) = Some next
    /\ dict_get next (themes (provider w)) = Some t
    /\ name t = next
    /\ index (name t) (keys (themes (provider w)))
       = Some ((i + 1) mod List.length (keys (themes (provider w))))%nat
    /\ incrementTheme w = setTheme next w
    /\ provider (fst (incrementTheme w)) = with_current t (provider w).
Proof.
  intros N W C I. destruct (index_nth _ _ _ I) as [_ L].
  set (n := List.length (keys (themes (provider w)))) in *.
  assert (B : ((i + 1) mod n < n)%nat) by (apply Nat.mod_upper_bound; lia).
  destruct (nth_error (keys (themes (provider w))) ((i + 1) mod n)) as [next|] eqn:E.
  2:{ apply nth_error_None in E. fold n in E. lia. }
  destruct (dict_get_keys next (themes (provider w)) (nth_error_In _ _ E)) as [t D].
  pose proof (W _ _ (dict_get_In _ _ _ D)) as Nt.
  assert (S : incrementTheme w = setTheme next w).
  { unfold incrementTheme, bindM, get_provider. rewrite C, I.
    subst n. destruct (keys (themes (provider w))) as [|k ks] eqn:K; [simpl in L; lia|].
    now rewrite E. }
  exists next, t. repeat split; auto.
  - rewrite Nt. now apply nth_index.
  - rewrite S. pose proof (setTheme_provider foreign_call next w) as P.
    now rewrite D in P.
Qed.

(** X19. In a reachable world [incrementTheme] raises no error of its
    own but [AttributeError] when no theme is active, the world staying as
    it is; with an active theme, the name of that theme is among the keys,
    a name follows it there, the first following the last, a theme is
    stored under that name, and [incrementTheme] is the call of [setTheme]
    on it: the lookups of [incrementTheme] and of [setTheme] raise
    nothing. *)
Theorem incrementTheme_reachable (w : World) :
  reachable w ->
  match current_theme (provider w) with
  | None => incrementTheme w = (w, Raise AttributeError)
  | Some current =>
      exists i next t,
        index (name current) (keys (themes (provider w))) = Some i
        /\ nth_error (keys (themes (provider w)))
             ((i + 1) mod List.length (keys (themes (provider w)))) = Some next
        /\ dict_get next (themes (provider w)) = Some t
        /\ incrementTheme w = setTheme next w
  end.
Proof.
  intros R. destruct (reachable_well_formed_aux w R) as (N & W & _).
  destruct (reachable_invariant foreign_call w R) as [_ A].
  destruct (current_theme (provider w)) as [current|] eqn:C.
  - destruct (index_In _ _ (A current C)) as [i I].
    destruct (incrementTheme_step w current i N W C I) as (next & t & E & D & _ & _ & S & _).
    exists i, next, t. now repeat split.
  - unfold incrementTheme, bindM, get_provider. now rewrite C.
Qed.

Lemma run_increment (k : nat) :
  forall (w : World) (current : Theme) (i : nat),
    NoDup (keys (themes (provider w))) -> well_named (provider w) ->
    current_theme (provider w) = Some current ->
    index (name current) (keys (themes (provider w))) = Some i ->
    exists t,
      current_theme (provider (run (repeat OpIncrementTheme k) w)) = Some t
      /\ index (name t) (keys (themes (provider w)))
         = Some ((i + k) mod List.length (keys (themes (provider w))))%nat.
Proof.
  induction k as [|k IH]; intros w current i N W C I.
  - exists current. split; [exact C|]. destruct (index_nth _ _ _ I) as [_ L].
    now rewrite Nat.add_0_r, Nat.mod_small.
  - destruct (incrementTheme_step w current i N W C I)
      as (next & t & _ & _ & _ & I' & _ & P).
    cbn [repeat run fold_left step].
    set (w1 := fst (incrementTheme w)) in *.
    assert (T : themes (provider w1) = themes (provider w)) by now rewrite P.
    destruct (IH w1 t ((i + 1) mod List.length (keys (themes (provider w)))))%nat
      as (t' & C' & J).
    + now rewrite T.
    + intros k0 t0. rewrite P. apply W.
    + now rewrite P.
    + now rewrite T.
    + exists t'. split; [exact C'|]. rewrite T in J. rewrite J. f_equal.
      rewrite Nat.Div0.add_mod_idemp_l. f_equal. lia.
Qed.

(** X20. The cycle closes: in a reachable world with an active theme, as
    many calls of [incrementTheme] as there are themes bring back the
    active theme's name, whatever the observers do. *)
Theorem incrementTheme_cycle (w : World) (current : Theme) :
  reachable w ->
  current_theme (provider w) = Some current ->
  option_map name
    (current_theme
       (provider (run (repeat OpIncrementTheme (List.length (themes (provider w)))) w)))
  = Some (name current).
Proof.
  intros R C. destruct (reachable_well_formed_aux w R) as (N & W & _).
  destruct (reachable_invariant foreign_call w R) as [_ A].
  destruct (index_In _ _ (A current C)) as [i I].
  destruct (run_increment (List.length (themes (provider w))) w current i N W C I)
    as (t & C' & J).
  rewrite C'. cbn [option_map]. f_equal.
  destruct (index_nth _ _ _ I) as [E L].
  assert (K : List.length (keys (themes (provider w))) = List.length (themes (provider w)))
    by apply length_map.
  rewrite K in J, L.
  replace ((i + List.length (themes (provider w))) mod List.length (themes (provider w)))%nat
    with i in J.
  2:{ rewrite <- Nat.Div0.add_mod_idemp_r, Nat.Div0.mod_same, Nat.add_0_r.
      symmetry. now apply Nat.mod_small. }
  destruct (index_nth _ _ _ J) as [E' _]. congruence.
Qed.

(** *** What the bindings are given *)

Lemma notify_bound (observers : list Callback) :
  forall w w',
    forallb is_bound observers = true ->
    notify observers w = (w', Return tt) ->
    provider w' = provider w
    /\ objects (env w') = objects (env w)
    /\ exists styles,
         applied (env w') = applied (env w) ++ styles
         /\ Forall2 (fun callback entry =>
                       rendering (provider w) (objects (env w)) callback = Some entry)
              observers styles.
Proof.
  induction observers as [|callback observers IH]; intros w w' B H.
  - injection H as <-. repeat split. exists []. split; [now rewrite app_nil_r | constructor].
  - cbn [forallb] in B. apply andb_prop in B as [Bc B].
    destruct callback as [self|k]; [|discriminate Bc].
    cbn [notify] in H. unfold bindM, invoke in H. cbn [call] in H.
    set (w0 := mkWorld (provider w) (env w) (calls w ++ [bound_onThemeChange self])) in *.
    pose proof (onThemeChange_cases self w0) as A.
    destruct (onThemeChange self w0) as [w1 [[]|e]]; [|discriminate H].
    destruct A as (o & sheet & wid & style & O & S & Wd & R & ->).
    destruct (IH _ _ B H) as (P & Ob & styles & Ap & F).
    cbn [restyled provider env objects applied] in P, Ob, Ap, F.
    repeat split; auto.
    exists ((wid, style) :: styles). split.
    + rewrite Ap. now rewrite <- app_assoc.
    + constructor; [|exact F].
      cbn [rendering]. cbn [w0 env] in O. rewrite O.
      destruct o as [sh wd]. cbn [style_sheet widget] in S, Wd. subst sh wd.
      cbn [w0 provider] in R. now rewrite R.
Qed.

(** X21. When every observer is the [onThemeChange] of a binding and
    [setTheme] on a registered name returns, the widgets were given one
    style sheet for each observer, in the order of registration: the
    binding's own, resolved under the newly selected theme. The bindings
    are as they were. *)
Theorem setTheme_restyles_bindings (name : string) (t : Theme) (w w' : World) :
  forallb is_bound (_observers (provider w)) = true ->
  dict_get name (themes (provider w)) = Some t ->
  setTheme name w = (w', Return tt) ->
  objects (env w') = objects (env w)
  /\ exists styles,
       applied (env w') = applied (env w) ++ styles
       /\ Forall2 (fun callback entry =>
                     rendering (with_current t (provider w)) (objects (env w)) callback
                     = Some entry)
            (_observers (provider w)) styles.
Proof.
  intros B D H. rewrite (setTheme_known foreign_call name t w D) in H.
  destruct (notify_bound _ _ _ B H) as (_ & O & styles & A & F).
  split; [exact O|]. exists styles. split; [exact A | exact F].
Qed.

End Coverage.

(** ** The properties above on the worlds *)

Lemma solarized_world_reachable : reachable quiet solarized_world.
Proof.
  exists (three_themes
          ++ [OpSetTheme "light"; OpThemeable (Some 1%nat) (Some "background: theme.bg[500]");
              OpAddObserver (foreign 0); OpSetTheme "solarized"]).
  reflexivity.
Qed.

Lemma incrementTheme_notifies_witness :
  exists (current : Theme) (i : nat) (next : string) (t : Theme),
    current_theme (provider solarized_world) = Some current
    /\ index (name current) (keys (themes (provider solarized_world))) = Some i
    /\ nth_error (keys (themes (provider solarized_world)))
         ((i + 1) mod List.length (keys (themes (provider solarized_world)))) = Some next
    /\ dict_get next (themes (provider solarized_world)) = Some t
    /\ current_theme (provider (fst (incrementTheme quiet solarized_world))) = Some t
    /\ observers_effect quiet (_observers (provider solarized_world))
         (with_current t (provider solarized_world)) (env solarized_world)
       = (env (fst (incrementTheme quiet solarized_world)), Return tt)
    /\ calls (fst (incrementTheme quiet solarized_world))
       = calls solarized_world ++ _observers (provider solarized_world)
    /\ setTheme quiet next solarized_world
       = (fst (incrementTheme quiet solarized_world), Return tt).
Proof.
  apply (incrementTheme_notifies quiet solarized_world
           (fst (incrementTheme quiet solarized_world))).
  vm_compute. reflexivity.
Defined.

Lemma setTheme_registered_witness :
  (env (fst (setTheme loud "dark" loud_world)), snd (setTheme loud "dark" loud_world))
  = observers_effect loud (_observers (provider loud_world))
      (with_current (mkTheme "dark" (merged ∅ dark_obj)) (provider loud_world))
      (env loud_world)
  /\ current_theme (provider (fst (setTheme loud "dark" loud_world)))
     = Some (mkTheme "dark" (merged ∅ dark_obj)).
Proof.
  apply (setTheme_registered loud "dark" (mkTheme "dark" (merged ∅ dark_obj)) loud_world).
  vm_compute. reflexivity.
Defined.

Lemma overlay_precedence_witness :
  snd (addTheme "high" {[ "fg" := "#ffffff" ]}
         (fst (addBase {[ "fg" := "#101010"; "bg" := "#202020" ]} bound_world)))
  = Return tt
  /\ getAttr
       (provider
          (fst (setTheme quiet "high"
                  (fst (addTheme "high" {[ "fg" := "#ffffff" ]}
                          (fst (addBase {[ "fg" := "#101010"; "bg" := "#202020" ]}
                                  bound_world)))))))
       "bg" None
     = Return match ({[ "fg" := "#ffffff" ]} : gmap string string) !! "bg" with
              | Some v => v
              | None =>
                  match ({[ "fg" := "#101010"; "bg" := "#202020" ]} : gmap string string)
                        !! "bg" with
                  | Some v => v
                  | None => "#000000"
                  end
              end.
Proof.
  apply (overlay_precedence quiet {[ "fg" := "#101010"; "bg" := "#202020" ]}
           {[ "fg" := "#ffffff" ]} "high" "bg" bound_world).
  vm_compute. reflexivity.
Defined.

(** The attribute that only the base has, and the one that the theme has too. *)
Lemma overlay_precedence_values :
  let w3 :=
    fst (setTheme quiet "high"
           (fst (addTheme "high" {[ "fg" := "#ffffff" ]}
                   (fst (addBase {[ "fg" := "#101010"; "bg" := "#202020" ]} bound_world))))) in
  getAttr (provider w3) "bg" None = Return "#202020"
  /\ getAttr (provider w3) "fg" None = Return "#ffffff"
  /\ getAttr (provider w3) "border" None = Return "#000000".
Proof. repeat split; vm_compute; reflexivity. Qed.

Lemma reachable_well_formed_witness :
  snd (getThemes solarized_world) = Return (keys (themes (provider solarized_world)))
  /\ NoDup (keys (themes (provider solarized_world)))
  /\ (forall k t, dict_get k (themes (provider solarized_world)) = Some t -> name t = k)
  /\ base_theme (provider solarized_world) <> assigned None.
Proof. exact (reachable_well_formed quiet solarized_world solarized_world_reachable). Defined.

Lemma incrementTheme_reachable_witness :
  match current_theme (provider solarized_world) with
  | None => incrementTheme quiet solarized_world = (solarized_world, Raise AttributeError)
  | Some current =>
      exists i next t,
        index (name current) (keys (themes (provider solarized_world))) = Some i
        /\ nth_error (keys (themes (provider solarized_world)))
             ((i + 1) mod List.length (keys (themes (provider solarized_world)))) = Some next
        /\ dict_get next (themes (provider solarized_world)) = Some t
        /\ incrementTheme quiet solarized_world = setTheme quiet next solarized_world
  end.
Proof. exact (incrementTheme_reachable quiet solarized_world solarized_world_reachable). Defined.

Lemma incrementTheme_cycle_witness :
  option_map name
    (current_theme
       (provider
          (run quiet
             (repeat OpIncrementTheme (List.length (themes (provider solarized_world))))
             solarized_world)))
  = Some (name (mkTheme "solarized" (merged ∅ {[ "bg" := "#002b36" ]}))).
Proof.
  apply (incrementTheme_cycle quiet solarized_world
           (mkTheme "solarized" (merged ∅ {[ "bg" := "#002b36" ]}))
           solarized_world_reachable).
  vm_compute. reflexivity.
Defined.

Lemma setTheme_restyles_bindings_witness :
  objects (env (fst (setTheme quiet "dark" bound_world))) = objects (env bound_world)
  /\ exists styles,
       applied (env (fst (setTheme quiet "dark" bound_world)))
       = applied (env bound_world) ++ styles
       /\ Forall2 (fun callback entry =>
                     rendering
                       (with_current (mkTheme "dark" (merged ∅ dark_obj)) (provider bound_world))
                       (objects (env bound_world)) callback
                     = Some entry)
            (_observers (provider bound_world)) styles.
Proof.
  apply (setTheme_restyles_bindings quiet "dark" (mkTheme "dark" (merged ∅ dark_obj))
           bound_world (fst (setTheme quiet "dark" bound_world)));
    vm_compute; reflexivity.
Defined.

(** The two bindings, restyled on the change to the dark theme. *)
Lemma bound_world_restyled :
  applied (env (fst (setTheme quiet "dark" bound_world)))
  = applied (env bound_world)
    ++ [(1%nat, "background: #222222"); (2%nat, "color: #111111")].
Proof. vm_compute. reflexivity. Qed.
